(** * PPT_GENERATOR: a shallow embedding of App.py (variant A) and App1.py (variant B)

    Python strings are modelled as lists of ASCII characters; Python's
    [len] is [length], slicing is [firstn]/[skipn], and [str.strip()] strips
    the characters for which [str.isspace()] holds. *)

From Stdlib Require Import Ascii String.
From Stdlib Require Import List Arith Lia Bool.
Import ListNotations.

Definition str := list ascii.

(** A Python string literal. *)
Definition lit (s : string) : str := list_ascii_of_string s.

(** [str.isspace()] on ASCII: \t \n \x0b \x0c \r, \x1c-\x1f and the space. *)
Definition is_space (c : ascii) : bool :=
  let n := nat_of_ascii c in
  ((9 <=? n) && (n <=? 13)) || ((28 <=? n) && (n <=? 31)) || (n =? 32).

Fixpoint lstrip (s : str) : str :=
  match s with
  | [] => []
  | c :: t => if is_space c then lstrip t else s
  end.

Definition rstrip (s : str) : str := rev (lstrip (rev s)).

(** [s.strip()] *)
Definition strip (s : str) : str := rstrip (lstrip s).

Definition space : ascii := " "%char.

(** Index of the last occurrence of [c] in [l]; [None] plays Python's -1. *)
Fixpoint rfind_char (c : ascii) (l : str) : option nat :=
  match l with
  | [] => None
  | x :: t =>
      match rfind_char c t with
      | Some i => Some (S i)
      | None => if ascii_dec x c then Some 0 else None
      end
  end.

(** [content.rfind(" ", 0, max_length)]: the search window is
    [content[0:max_length]]. *)
Definition rfind_space (content : str) (max_length : nat) : option nat :=
  rfind_char space (firstn max_length content).

(** ** App.py, [split_content] *)

(** One iteration of the [while] loop body: the chunk appended and the new
    value of [content]. *)
Definition split_step (max_length : nat) (content : str) : str * str :=
  let split_index :=
    match rfind_space content max_length with
    | Some i => i
    | None => max_length
    end in
  (firstn split_index content, strip (skipn split_index content)).

(** Big-step semantics of the loop
    [while len(content) > max_length: ...; chunks.append(content)]:
    [split_runs m content chunks] holds when the loop started on [content]
    terminates and the function returns [chunks]. *)
Inductive split_runs (max_length : nat) : str -> list str -> Prop :=
| split_exit : forall content,
    length content <= max_length ->
    split_runs max_length content [content]
| split_iter : forall content chunk rest chunks,
    max_length < length content ->
    split_step max_length content = (chunk, rest) ->
    split_runs max_length rest chunks ->
    split_runs max_length content (chunk :: chunks).

(** The loop, run with a fuel bound; [split_content] gives it
    [S (length content)] iterations, which suffice whenever
    [max_length >= 1] (see the termination theorem below). *)
Fixpoint split_content_fuel (fuel max_length : nat) (content : str) : list str :=
  match fuel with
  | O => [content]
  | S f =>
      if length content <=? max_length then [content]
      else let (chunk, rest) := split_step max_length content in
           chunk :: split_content_fuel f max_length rest
  end.

Definition split_content (content : str) (max_length : nat) : list str :=
  split_content_fuel (S (length content)) max_length content.

(** Whitespace-only strings, and the text rebuilt from chunks and the
    whitespace gaps that follow each of them. *)
Definition all_space (w : str) : bool := forallb is_space w.

Fixpoint rejoin (chunks gaps : list str) : str :=
  match chunks, gaps with
  | c :: cs, g :: gs => c ++ g ++ rejoin cs gs
  | _, _ => []
  end.

(** ** Lemmas on stripping and on the loop *)

Lemma lstrip_length s : length (lstrip s) <= length s.
Proof.
  induction s as [|c t IH]; simpl; [lia|].
  destruct (is_space c); simpl; lia.
Qed.

Lemma strip_length s : length (strip s) <= length s.
Proof.
  unfold strip, rstrip.
  rewrite length_rev.
  pose proof (lstrip_length (rev (lstrip s))) as H1.
  rewrite length_rev in H1.
  pose proof (lstrip_length s). lia.
Qed.

Lemma lstrip_split s :
  exists lead, all_space lead = true /\ s = lead ++ lstrip s.
Proof.
  induction s as [|c t [lead [Hl He]]].
  - exists []. auto.
  - simpl. destruct (is_space c) eqn:Hc.
    + exists (c :: lead). simpl. rewrite Hc, Hl. split; [reflexivity|].
      rewrite <- He. reflexivity.
    + exists []. auto.
Qed.

Lemma all_space_app a b :
  all_space (a ++ b) = all_space a && all_space b.
Proof. unfold all_space. apply forallb_app. Qed.

Lemma all_space_rev a : all_space (rev a) = all_space a.
Proof.
  induction a as [|c t IH]; simpl; [reflexivity|].
  rewrite all_space_app, IH. simpl.
  rewrite andb_true_r, andb_comm. reflexivity.
Qed.

Lemma strip_split s :
  exists lead trail,
    all_space lead = true /\ all_space trail = true /\
    s = lead ++ strip s ++ trail.
Proof.
  destruct (lstrip_split s) as [lead [Hl Hs]].
  destruct (lstrip_split (rev (lstrip s))) as [tr [Ht Hr]].
  exists lead, (rev tr). split; [exact Hl|]. split; [rewrite all_space_rev; exact Ht|].
  unfold strip, rstrip.
  assert (E : lstrip s = rev (lstrip (rev (lstrip s))) ++ rev tr).
  { rewrite <- rev_app_distr, <- Hr, rev_involutive. reflexivity. }
  rewrite Hs at 1. f_equal. exact E.
Qed.

Lemma rfind_char_some c l i :
  rfind_char c l = Some i -> i < length l /\ nth_error l i = Some c.
Proof.
  revert i. induction l as [|x t IH]; intros i H; simpl in H; [discriminate|].
  destruct (rfind_char c t) as [j|] eqn:Ht.
  - inversion H; subst. destruct (IH j eq_refl). simpl. split; [lia|assumption].
  - destruct (ascii_dec x c) as [->|]; [|discriminate].
    inversion H; subst. simpl. split; [lia|reflexivity].
Qed.

(** The cut position chosen by the loop body is at most [max_length]. *)
Lemma split_index_bound m content i :
  rfind_space content m = Some i -> i < m /\ nth_error content i = Some space.
Proof.
  unfold rfind_space. intro H.
  destruct (rfind_char_some _ _ _ H) as [Hlt Hn].
  rewrite length_firstn in Hlt.
  rewrite nth_error_firstn in Hn.
  destruct (i <? m) eqn:E; [|discriminate].
  apply Nat.ltb_lt in E. split; assumption.
Qed.

Lemma split_step_chunk_length m content :
  length (fst (split_step m content)) <= m.
Proof.
  unfold split_step. destruct (rfind_space content m) as [i|] eqn:E; simpl;
    rewrite length_firstn.
  - destruct (split_index_bound _ _ _ E). lia.
  - lia.
Qed.

Lemma split_step_shortens m content :
  0 < m -> m < length content ->
  length (snd (split_step m content)) < length content.
Proof.
  intros Hm Hlen. unfold split_step.
  destruct (rfind_space content m) as [i|] eqn:E; simpl.
  - destruct (split_index_bound _ _ _ E) as [Hi Hn].
    destruct i as [|i].
    + destruct content as [|c t]; [discriminate|].
      simpl in Hn. inversion Hn; subst c. simpl.
      pose proof (strip_length t) as Ht.
      unfold strip in Ht |- *. simpl. lia.
    + pose proof (strip_length (skipn (S i) content)).
      rewrite length_skipn in H.
      assert (S i < length content) by (apply nth_error_Some; congruence).
      lia.
  - pose proof (strip_length (skipn m content)).
    rewrite length_skipn in H. lia.
Qed.

Lemma split_content_fuel_runs m :
  0 < m ->
  forall fuel content, length content < fuel ->
  split_runs m content (split_content_fuel fuel m content).
Proof.
  intros Hm fuel. induction fuel as [|f IH]; intros content Hf; [lia|].
  cbn [split_content_fuel]. destruct (length content <=? m) eqn:E.
  - apply split_exit. apply Nat.leb_le. exact E.
  - apply Nat.leb_gt in E.
    destruct (split_step m content) as [chunk rest] eqn:Es.
    eapply split_iter; [exact E|exact Es|].
    apply IH.
    pose proof (split_step_shortens m content Hm E) as Hs.
    rewrite Es in Hs. simpl in Hs. lia.
Qed.

Lemma split_content_runs m content :
  0 < m -> split_runs m content (split_content content m).
Proof.
  intro Hm. apply split_content_fuel_runs; [exact Hm|lia].
Qed.

Lemma split_runs_det m content r1 r2 :
  split_runs m content r1 -> split_runs m content r2 -> r1 = r2.
Proof.
  intros H1. revert r2.
  induction H1 as [c Hc|c ch rest chs Hc Hs H IH]; intros r2 H2;
    inversion H2; subst.
  - reflexivity.
  - lia.
  - lia.
  - match goal with
    | Hs2 : split_step m c = (_, _) |- _ => rewrite Hs in Hs2; inversion Hs2; subst
    end.
    f_equal. apply IH. assumption.
Qed.

Lemma split_runs_nonempty m content r :
  split_runs m content r -> r <> [].
Proof. intro H. destruct H; discriminate. Qed.

Lemma split_runs_bound m content r :
  split_runs m content r -> Forall (fun chunk => length chunk <= m) r.
Proof.
  induction 1 as [c Hc|c ch rest chs Hc Hs H IH].
  - constructor; [exact Hc|constructor].
  - constructor; [|exact IH].
    pose proof (split_step_chunk_length m c) as Hl.
    rewrite Hs in Hl. exact Hl.
Qed.

Lemma rejoin_add_trail chunks gaps t :
  length gaps = length chunks -> chunks <> [] ->
  Forall (fun g => all_space g = true) gaps -> all_space t = true ->
  exists gaps', length gaps' = length chunks /\
    Forall (fun g => all_space g = true) gaps' /\
    rejoin chunks gaps ++ t = rejoin chunks gaps'.
Proof.
  revert gaps. induction chunks as [|c cs IH]; intros gaps Hl Hne Hg Ht;
    [congruence|].
  destruct gaps as [|g gs]; [discriminate|].
  inversion Hg as [|? ? Hg1 Hgs]; subst.
  destruct cs as [|c2 cs].
  - destruct gs; [|discriminate].
    exists [g ++ t]. split; [reflexivity|]. split.
    + constructor; [rewrite all_space_app, Hg1, Ht; reflexivity|constructor].
    + simpl. rewrite !app_nil_r, app_assoc. reflexivity.
  - destruct (IH gs) as [gs' [Hl' [Hg' He]]]; simpl in *; try congruence; auto.
    exists (g :: gs'). split; [simpl; lia|]. split; [constructor; assumption|].
    simpl. rewrite <- He, !app_assoc. reflexivity.
Qed.

Lemma split_runs_rejoin m content r :
  split_runs m content r ->
  exists gaps, length gaps = length r /\
    Forall (fun g => all_space g = true) gaps /\
    rejoin r gaps = content.
Proof.
  induction 1 as [c Hc|c ch rest chs Hc Hs H IH].
  - exists [[]]. split; [reflexivity|]. split; [repeat constructor|].
    simpl. rewrite !app_nil_r. reflexivity.
  - destruct IH as [gs [Hl [Hg He]]].
    unfold split_step in Hs.
    set (k := match rfind_space c m with Some i => i | None => m end) in Hs.
    assert (Ech : ch = firstn k c) by (inversion Hs; reflexivity).
    assert (Er : rest = strip (skipn k c)) by (inversion Hs; reflexivity).
    subst ch. rewrite Er in He.
    destruct (strip_split (skipn k c)) as [lead [trail [Hlead [Htrail Hsp]]]].
    destruct (rejoin_add_trail chs gs trail Hl (split_runs_nonempty _ _ _ H) Hg Htrail)
      as [gs' [Hl' [Hg' He']]].
    exists (lead :: gs'). split; [simpl; lia|]. split; [constructor; assumption|].
    simpl. rewrite <- He', He.
    transitivity (firstn k c ++ skipn k c); [|apply firstn_skipn].
    f_equal. symmetry. exact Hsp.
Qed.

Example split_content_ex1 :
  split_content (lit " ab cd efg") 3 = [[]; lit "ab"; lit "cd"; lit "efg"].
Proof. reflexivity. Qed.

Example split_content_ex2 :
  split_content (lit "abcdefg ") 3 = [lit "abc"; lit "def"; lit "g"].
Proof. reflexivity. Qed.

Example split_content_ex3 : split_content [] 900 = [[]].
Proof. reflexivity. Qed.

(** ** Decks, the environment and the generative service *)

(** A slide as python-pptx builds it here: the layout index used
    ([slide_layouts[0]] title slide, [slide_layouts[1]] title and content),
    the text of the title placeholder, the text of placeholder 1, and the
    paragraph level set on that body ([None] when the code sets none).
    Font sizes, bullets and alignment are not modelled. *)
Record slide := mk_slide {
  layout : nat;
  title_text : str;
  body_text : str;
  body_level : option nat
}.

Definition deck := list slide.

Definition is_title_slide (sl : slide) : bool := layout sl =? 0.

(** The state the two scripts act on: the credential read at start-up
    ([os.getenv("GOOGLE_API_KEY")]), the service (its answer to the n-th call
    with a given prompt: [Some text], or [None] when the call raises), the
    number of calls made so far, the presentation files on disk, newest
    first ([prs.save] overwrites, so a lookup finds the latest), and which
    file names [prs.save] can write ([false]: the save raises, e.g. a
    missing directory as in [a/b.pptx] or a name too long for the file
    system). *)
Record world := mk_world {
  api_key : option str;
  gemini : nat -> str -> option str;
  calls : nat;
  files : list (str * deck);
  can_save : str -> bool
}.

(** [if not GEMINI_API_KEY]: [None] and the empty string are falsy. *)
Definition key_missing (k : option str) : bool :=
  match k with
  | None => true
  | Some s => match s with [] => true | _ => false end
  end.

Definition incr_calls (w : world) : world :=
  mk_world (api_key w) (gemini w) (S (calls w)) (files w) (can_save w).

Definition save_file (name : str) (d : deck) (w : world) : world :=
  mk_world (api_key w) (gemini w) (calls w) ((name, d) :: files w) (can_save w).

Fixpoint lookup_file (name : str) (fs : list (str * deck)) : option deck :=
  match fs with
  | [] => None
  | (n, d) :: rest => if list_eq_dec ascii_dec n name then Some d else lookup_file name rest
  end.

(** [generate_content] (the two scripts share its body; App.py receives the
    prompt, App1.py builds it). *)
Definition generate_content (prompt : str) (w : world) : str * world :=
  if key_missing (api_key w) then (lit "Error: Missing API key.", w)
  else match gemini w (calls w) prompt with
       | Some text => (text, incr_calls w)
       | None => (lit "Error generating content.", incr_calls w)
       end.

(** [title.replace(' ', '_')] *)
Definition replace_spaces (s : str) : str :=
  map (fun c => if ascii_dec c space then "_"%char else c) s.

Fixpoint join (sep : str) (l : list str) : str :=
  match l with
  | [] => []
  | [x] => x
  | x :: rest => x ++ sep ++ join sep rest
  end.

(** [repr] of a Python string (ASCII): single quotes unless the text has a
    single quote and no double quote; backslash, the quote used, \t \n \r
    and other unprintable characters escaped. *)
Definition hex_digit (n : nat) : ascii :=
  if n <? 10 then ascii_of_nat (48 + n) else ascii_of_nat (87 + n).

Definition repr_char (q c : ascii) : str :=
  let n := nat_of_ascii c in
  if ascii_dec c "\"%char then lit "\\"
  else if ascii_dec c q then ["\"%char; q]
  else if n =? 9 then lit "\t"
  else if n =? 10 then lit "\n"
  else if n =? 13 then lit "\r"
  else if (n <? 32) || (n =? 127) then
    ["\"%char; "x"%char; hex_digit (n / 16); hex_digit (n mod 16)]
  else [c].

Definition dquote : ascii := ascii_of_nat 34.

Definition py_repr (s : str) : str :=
  let q := if existsb (fun c => if ascii_dec c "'"%char then true else false) s
              && negb (existsb (fun c => if ascii_dec c dquote then true else false) s)
           then dquote else "'"%char in
  q :: flat_map (repr_char q) s ++ [q].

(** [f"{topics}"] for a list of strings. *)
Definition py_list_repr (l : list str) : str :=
  lit "[" ++ join (lit ", ") (map py_repr l) ++ lit "]".

(** ** App.py, [create_presentation] (variant A) *)

Definition title_slide (title : str) : slide :=
  mk_slide 0 title (lit "Generated by AI") None.

(** The slides of one topic: [content_chunks[0]] on a slide whose body
    paragraphs get level 0, then one slide per remaining chunk with level 3.
    Indexing an empty chunk list raises ([None]). *)
Definition topic_slides (topic : str) (content_chunks : list str) : option deck :=
  match content_chunks with
  | [] => None
  | first :: rest =>
      Some (mk_slide 1 topic first (Some 0)
            :: map (fun chunk => mk_slide 1 topic chunk (Some 3)) rest)
  end.

(** [for topic in topics: ... content_chunks = split_content(content, max_length=900)]
    (the [st.write] calls only display). *)
Fixpoint topics_slides (content : str) (topics : list str) : option deck :=
  match topics with
  | [] => Some []
  | topic :: rest =>
      match topic_slides topic (split_content content 900) with
      | None => None
      | Some d =>
          match topics_slides content rest with
          | None => None
          | Some d' => Some (d ++ d')
          end
      end
  end.

Definition prompt_A (title : str) (topics : list str) : str :=
  lit "Generate ppt for the topic:" ++ py_list_repr topics ++ lit " under title " ++ title.

(** Returns the file name and the new world, or [None] when an exception
    escapes. *)
Definition create_presentation_A (title : str) (topics : list str) (w : world)
  : option (str * world) :=
  let prs := [title_slide title] in
  let (content, w1) := generate_content (prompt_A title topics) w in
  match topics_slides content topics with
  | None => None
  | Some body =>
      let file_name := replace_spaces title ++ lit ".pptx" in
      (* [prs.save(file_name)]; an error it raises escapes *)
      if can_save w1 file_name then Some (file_name, save_file file_name (prs ++ body) w1)
      else None
  end.

Definition no_key_world : world := mk_world None (fun _ _ => None) 0 [] (fun _ => true).

Definition answer_world (text : str) : world :=
  mk_world (Some (lit "k")) (fun _ _ => Some text) 0 [] (fun _ => true).

Example prompt_A_ex :
  prompt_A (lit "Gen AI") [lit "A"; lit "B"] =
  lit "Generate ppt for the topic:['A', 'B'] under title Gen AI".
Proof. reflexivity. Qed.

(** ** App.py, the submit handler *)

Definition newline : ascii := ascii_of_nat 10.

(** [s.split(c)]: "" gives [""], a trailing separator gives a final "". *)
Fixpoint split_on (c : ascii) (s : str) : list str :=
  match s with
  | [] => [[]]
  | x :: t =>
      if ascii_dec x c then [] :: split_on c t
      else match split_on c t with
           | [] => [[x]]
           | y :: ys => (x :: y) :: ys
           end
  end.

Definition nonempty (s : str) : bool :=
  match s with [] => false | _ => true end.

(** [[topic.strip() for topic in topics_input.split("\n") if topic.strip()]] *)
Definition parse_topics (topics_input : str) : list str :=
  map strip (filter (fun t => nonempty (strip t)) (split_on newline topics_input)).

Inductive outcome_A :=
| NoTopics_A                      (* st.error("Please enter at least one topic.") *)
| Crash_A                         (* an exception escaped *)
| Offer_A (file_name : str) (d : deck).  (* st.success + st.download_button *)

Definition submit_A (title topics_input : str) (w : world) : outcome_A * world :=
  match parse_topics topics_input with
  | [] => (NoTopics_A, w)
  | topics =>
      match create_presentation_A title topics w with
      | None => (Crash_A, w)
      | Some (file_name, w1) =>
          match lookup_file file_name (files w1) with
          | Some d => (Offer_A file_name d, w1)
          | None => (Crash_A, w1)
          end
      end
  end.

(** ** App1.py, [split_into_slides] (variant B) *)

Definition is_digit (c : ascii) : bool :=
  let n := nat_of_ascii c in (48 <=? n) && (n <=? 57).

Fixpoint digits_len (s : str) : nat :=
  match s with
  | c :: t => if is_digit c then S (digits_len t) else 0
  | [] => 0
  end.

Fixpoint starts_with (p s : str) : bool :=
  match p, s with
  | [], _ => true
  | c :: p', d :: s' => if ascii_dec c d then starts_with p' s' else false
  | _ :: _, [] => false
  end.

(** Length of the match of [Slide \d+:] at the start of [s]
    ([\d+] takes the maximal run of digits; shorter runs are followed by a
    digit, never by the colon). *)
Definition marker_len (s : str) : option nat :=
  if starts_with (lit "Slide ") s then
    let r := skipn 6 s in
    match digits_len r with
    | 0 => None
    | d => match nth_error r d with
           | Some c => if ascii_dec c ":" then Some (7 + d) else None
           | None => None
           end
    end
  else None.

(** The lookahead [(?=Slide \d+:|$)] at index [j] of [s]: without MULTILINE,
    [$] holds at the end and just before a final newline. *)
Definition lookahead_ok (s : str) (j : nat) : bool :=
  match marker_len (skipn j s) with
  | Some _ => true
  | None =>
      (j =? length s) ||
      ((S j =? length s) && (if ascii_dec (nth j s "a"%char) newline then true else false))
  end.

(** Smallest [j] in [k, k + fuel) with [p j], else [k + fuel]. *)
Fixpoint first_from (p : nat -> bool) (k fuel : nat) : nat :=
  match fuel with
  | O => k
  | S f => if p k then k else first_from p (S k) f
  end.

(** The lazy [.*?] (DOTALL) started at [k]: the first index where the
    lookahead holds; the end of the text always does. *)
Definition lazy_end (s : str) (k : nat) : nat :=
  first_from (lookahead_ok s) k (length s - k).

Definition slice (i j : nat) (s : str) : str := firstn (j - i) (skipn i s).

(** [slide_pattern.findall(content)] scanning from index [pos]: a match is
    tried at each index; after a match the scan resumes at its end. *)
Fixpoint findall_from (fuel : nat) (s : str) (pos : nat) : list str :=
  match fuel with
  | O => []
  | S f =>
      if length s <? pos then []
      else match marker_len (skipn pos s) with
           | Some n =>
               let j := lazy_end s (pos + n) in
               slice pos j s :: findall_from f s j
           | None => findall_from f s (S pos)
           end
  end.

Definition findall (s : str) : list str := findall_from (S (S (length s))) s 0.

(** [match[:-2]] *)
Definition drop_last2 (m : str) : str := firstn (length m - 2) m.

(** [f"**{match}"] *)
Definition wrap_bold (m : str) : str := lit "**" ++ m.

Definition split_into_slides (content : str) : list str :=
  map (fun m => wrap_bold (drop_last2 m)) (findall content).

Definition is_star (c : ascii) : bool := if ascii_dec c "*" then true else false.

(** [item.replace('**', '')]: occurrences are removed left to right, without
    overlap. *)
Fixpoint remove_dstar (s : str) : str :=
  match s with
  | [] => []
  | c :: t =>
      if is_star c then
        match t with
        | d :: t' => if is_star d then remove_dstar t' else c :: remove_dstar t
        | [] => [c]
        end
      else c :: remove_dstar t
  end.

Definition remove_double_asteris (input_list : list str) : list str :=
  map remove_dstar input_list.

Example findall_ex :
  findall (lit "Intro Slide 1: A
x
Slide 2: B
y
") = [lit "Slide 1: A
x
"; lit "Slide 2: B
y"].
Proof. reflexivity. Qed.

(** ** App1.py, [process_slide_title] and [generate_ppt] *)

(** [slide.split("\n", 1)] when it gives two parts. *)
Fixpoint split_first (c : ascii) (s : str) : option (str * str) :=
  match s with
  | [] => None
  | x :: t =>
      if ascii_dec x c then Some ([], t)
      else match split_first c t with
           | Some (a, b) => Some (x :: a, b)
           | None => None
           end
  end.

Fixpoint lstrip_by (p : ascii -> bool) (s : str) : str :=
  match s with
  | [] => []
  | c :: t => if p c then lstrip_by p t else s
  end.

(** [s.strip("* ")] *)
Definition strip_star_space (s : str) : str :=
  let p c := if ascii_dec c "*" then true else if ascii_dec c space then true else false in
  rev (lstrip_by p (rev (lstrip_by p s))).

Fixpoint take_line (s : str) : str :=
  match s with
  | [] => []
  | c :: t => if ascii_dec c newline then [] else c :: take_line t
  end.

(** [re.match(r"Slide (\d+): (.+)", header)]: groups 1 and 2. *)
Definition match_header (header : str) : option (str * str) :=
  if starts_with (lit "Slide ") header then
    let r := skipn 6 header in
    match digits_len r with
    | 0 => None
    | d =>
        match skipn d r with
        | ":"%char :: " "%char :: t =>
            match take_line t with
            | [] => None
            | g2 => Some (firstn d r, g2)
            end
        | _ => None
        end
    end
  else None.

Definition process_slide_title (sl : str) : option (str * str * str) :=
  match split_first newline sl with
  | None => None
  | Some (part0, part1) =>
      match match_header (strip part0) with
      | None => None
      | Some (slide_number, g2) =>
          let title := strip g2 in
          let points := strip part1 in
          let points_list :=
            map (fun point => strip (strip_star_space point))
                (filter (fun point => nonempty (strip point)) (split_on newline points)) in
          Some (slide_number, title, join (lit ", ") points_list)
      end
  end.

(** The deck written to the stream; [None]: [no,title,content = None] raises
    [TypeError]. *)
Fixpoint generate_ppt (slides : list str) : option deck :=
  match slides with
  | [] => Some []
  | slide_content :: rest =>
      match process_slide_title slide_content with
      | None => None
      | Some (no, title, content) =>
          match generate_ppt rest with
          | None => None
          | Some d => Some (mk_slide 1 (no ++ lit "." ++ title) content None :: d)
          end
      end
  end.

(** ** App1.py, [create_presentation] and the submit handler *)

Definition prompt_B (title : str) (topics : list str) : str :=
  lit "Generate ppt for the topic: " ++ join (lit ", ") topics ++ lit " under title " ++ title.

(** Python returns a string (the error) or a list; [inl] / [inr]. *)
Definition create_presentation_B (title : str) (topics : list str) (w : world)
  : (str + list str) * world :=
  let (content, w1) := generate_content (prompt_B title topics) w in
  if starts_with (lit "Error") content then (inl content, w1)
  else (inr (remove_double_asteris (split_into_slides content)), w1).

Inductive outcome_B :=
| NoTopics_B                      (* st.error("Please enter at least one topic.") *)
| ShowError_B (msg : str)         (* st.error(slides) *)
| Crash_B                         (* an exception escaped *)
| Offer_B (slides : list str) (d : deck) (file_name : str).
    (* st.success, the slide texts, st.download_button with the stream *)

Definition offer_B (title : str) (slides : list str) : outcome_B :=
  match generate_ppt slides with
  | None => Crash_B
  | Some d => Offer_B slides d (replace_spaces title ++ lit "_presentation.pptx")
  end.

Definition submit_B (title topics_input : str) (w : world) : outcome_B * world :=
  match parse_topics topics_input with
  | [] => (NoTopics_B, w)
  | topics =>
      let (slides, w1) := create_presentation_B title topics w in
      match slides with
      | inl e =>
          if starts_with (lit "Error") e then (ShowError_B e, w1)
          (* iterating a str yields its characters *)
          else (offer_B title (map (fun c => [c]) e), w1)
      | inr l => (offer_B title l, w1)
      end
  end.

Example process_ex :
  process_slide_title (lit "Slide 1: Intro
* one
* two") = Some (lit "1", lit "Intro", lit "one, two").
Proof. reflexivity. Qed.

Example submit_B_ex :
  fst (submit_B (lit "Gen AI") (lit "A") (answer_world (lit "Slide 1: Intro
* one
* two

Slide 2: More
* three

"))) =
  Offer_B [lit "Slide 1: Intro
* one
* two"; lit "Slide 2: More
* thre"]
    [mk_slide 1 (lit "1.Intro") (lit "one, two") None;
     mk_slide 1 (lit "2.More") (lit "thre") None]
    (lit "Gen_AI_presentation.pptx").
Proof. vm_compute. reflexivity. Qed.

(** ** Variant A: shape of the deck *)

(** The slides [topic_slides] builds for a non-empty chunk list. *)
Definition content_slides (topic : str) (chunks : list str) : deck :=
  match chunks with
  | [] => []
  | first :: rest =>
      mk_slide 1 topic first (Some 0)
      :: map (fun chunk => mk_slide 1 topic chunk (Some 3)) rest
  end.

Lemma split_content_fuel_cons fuel m content :
  exists first rest, split_content_fuel fuel m content = first :: rest.
Proof.
  destruct fuel as [|f]; cbn [split_content_fuel].
  - eauto.
  - destruct (length content <=? m); [eauto|].
    destruct (split_step m content). eauto.
Qed.

Lemma split_content_cons content m : split_content content m <> [].
Proof.
  unfold split_content.
  destruct (split_content_fuel_cons (S (length content)) m content) as [x [r ->]].
  discriminate.
Qed.

Lemma topic_slides_some topic chunks :
  chunks <> [] -> topic_slides topic chunks = Some (content_slides topic chunks).
Proof. destruct chunks; [congruence|reflexivity]. Qed.

Lemma content_slides_length topic chunks :
  length (content_slides topic chunks) = length chunks.
Proof. destruct chunks; simpl; [reflexivity|]. rewrite length_map. reflexivity. Qed.

Lemma content_slides_bodies topic chunks :
  map body_text (content_slides topic chunks) = chunks.
Proof.
  destruct chunks as [|c cs]; simpl; [reflexivity|].
  rewrite map_map. simpl. rewrite map_id. reflexivity.
Qed.

Lemma content_slides_not_title topic chunks :
  Forall (fun sl => is_title_slide sl = false) (content_slides topic chunks).
Proof.
  destruct chunks as [|c cs]; simpl; constructor; [reflexivity|].
  apply Forall_forall. intros x Hx. apply in_map_iff in Hx.
  destruct Hx as [y [<- _]]. reflexivity.
Qed.

Lemma topics_slides_flat content topics :
  topics_slides content topics =
  Some (flat_map (fun topic => content_slides topic (split_content content 900)) topics).
Proof.
  induction topics as [|t ts IH]; simpl; [reflexivity|].
  rewrite topic_slides_some by apply split_content_cons.
  rewrite IH. reflexivity.
Qed.

Lemma lookup_file_head name d fs : lookup_file name ((name, d) :: fs) = Some d.
Proof. simpl. destruct (list_eq_dec ascii_dec name name); congruence. Qed.

(** What [create_presentation_A] does, for every input. *)
Lemma create_presentation_A_eq title topics w :
  create_presentation_A title topics w =
  let (content, w1) := generate_content (prompt_A title topics) w in
  let file_name := replace_spaces title ++ lit ".pptx" in
  if can_save w1 file_name then
    Some (file_name,
          save_file file_name
            (title_slide title
             :: flat_map (fun topic => content_slides topic (split_content content 900)) topics)
            w1)
  else None.
Proof.
  unfold create_presentation_A.
  destruct (generate_content (prompt_A title topics) w) as [content w1].
  rewrite topics_slides_flat. reflexivity.
Qed.

Lemma generate_content_calls prompt w :
  calls (snd (generate_content prompt w)) =
  if key_missing (api_key w) then calls w else S (calls w).
Proof.
  unfold generate_content. destruct (key_missing (api_key w)); [reflexivity|].
  destruct (gemini w (calls w) prompt); reflexivity.
Qed.

Lemma generate_content_can_save prompt w :
  can_save (snd (generate_content prompt w)) = can_save w.
Proof.
  unfold generate_content. destruct (key_missing (api_key w)); [reflexivity|].
  destruct (gemini w (calls w) prompt); reflexivity.
Qed.

Lemma flat_map_length_const {A B} (f : A -> list B) k l :
  (forall x, length (f x) = k) -> length (flat_map f l) = length l * k.
Proof.
  intro H. induction l as [|x t IH]; simpl; [reflexivity|].
  rewrite length_app, H, IH. reflexivity.
Qed.

(** ** Variant B: [generate_ppt] *)

Lemma generate_ppt_none slides :
  generate_ppt slides = None <-> Exists (fun sl => process_slide_title sl = None) slides.
Proof.
  induction slides as [|s rest IH]; simpl.
  - split; [discriminate|intro H; inversion H].
  - destruct (process_slide_title s) as [[[no t] c]|] eqn:E.
    + destruct (generate_ppt rest) eqn:Er.
      * split; [discriminate|]. intro H. inversion H; subst; [congruence|].
        apply IH in H1. discriminate.
      * split; [intros _; apply Exists_cons_tl; apply IH; reflexivity|reflexivity].
    + split; [intros _; apply Exists_cons_hd; exact E|reflexivity].
Qed.

Lemma generate_ppt_some slides d :
  generate_ppt slides = Some d ->
  length d = length slides /\ Forall (fun sl => layout sl = 1) d.
Proof.
  revert d. induction slides as [|s rest IH]; intros d H; simpl in H.
  - inversion H; subst. split; [reflexivity|constructor].
  - destruct (process_slide_title s) as [[[no t] c]|]; [|discriminate].
    destruct (generate_ppt rest) as [d'|] eqn:Er; [|discriminate].
    inversion H; subst. destruct (IH d' eq_refl) as [Hl Hf].
    split; [simpl; lia|constructor; [reflexivity|exact Hf]].
Qed.

(** ** Removing the bold marker *)

Fixpoint has_dstar (s : str) : bool :=
  match s with
  | [] => false
  | c :: t => (is_star c && match t with d :: _ => is_star d | [] => false end) || has_dstar t
  end.

Lemma remove_dstar_id x : has_dstar x = false -> remove_dstar x = x.
Proof.
  induction x as [|c t IH]; intro H; simpl in *; [reflexivity|].
  apply orb_false_iff in H. destruct H as [H1 H2].
  destruct (is_star c) eqn:Ec.
  - destruct t as [|d t'].
    + reflexivity.
    + simpl in H1. rewrite H1. rewrite IH by exact H2. reflexivity.
  - rewrite IH by exact H2. reflexivity.
Qed.

(** ** Variant B: the markers of a text and the span each one opens

    Index-based reading of "the text from each [Slide <n>:] marker up to the
    next marker, or up to the end of the text ([$]: the end, or just before
    a final newline)". *)

Definition marker_at (s : str) (i : nat) : bool :=
  match marker_len (skipn i s) with Some _ => true | None => false end.

Definition markers_from (s : str) (pos : nat) : list nat :=
  filter (marker_at s) (seq pos (length s - pos)).

Definition marker_positions (s : str) : list nat := markers_from s 0.

Definition text_end (s : str) : nat :=
  if (0 <? length s) &&
     (if ascii_dec (nth (length s - 1) s "a"%char) newline then true else false)
  then length s - 1 else length s.

Fixpoint spans_of (s : str) (ps : list nat) : list str :=
  match ps with
  | [] => []
  | p :: rest =>
      slice p (match rest with q :: _ => q | [] => text_end s end) s
      :: spans_of s rest
  end.

Definition marker_spans (s : str) : list str := spans_of s (marker_positions s).

Lemma starts_with_firstn p s : starts_with p s = true -> firstn (length p) s = p.
Proof.
  revert s. induction p as [|c p IH]; intros s H; [reflexivity|].
  destruct s as [|d s]; simpl in H; [discriminate|].
  destruct (ascii_dec c d) as [->|]; [|discriminate].
  simpl. rewrite IH by exact H. reflexivity.
Qed.

Lemma digits_len_spec r k : k < digits_len r -> is_digit (nth k r "a"%char) = true.
Proof.
  revert k. induction r as [|c t IH]; intros k Hk; simpl in Hk; [lia|].
  destruct (is_digit c) eqn:Ec; [|lia].
  destruct k as [|k]; simpl; [exact Ec|apply IH; lia].
Qed.

Lemma marker_len_shape u n :
  marker_len u = Some n ->
  8 <= n /\ n <= length u /\ nth 0 u "a"%char = "S"%char /\
  (forall k, 1 <= k < n -> nth k u "a"%char <> "S"%char) /\
  nth (n - 1) u "a"%char = ":"%char.
Proof.
  unfold marker_len. destruct (starts_with (lit "Slide ") u) eqn:Hs; [|discriminate].
  apply starts_with_firstn in Hs. simpl length in Hs.
  destruct (digits_len (skipn 6 u)) as [|d] eqn:Hd; [discriminate|].
  destruct (nth_error (skipn 6 u) (S d)) as [c|] eqn:Hn; [|discriminate].
  destruct (ascii_dec c ":") as [->|]; [|discriminate].
  intro E. inversion E; subst n. clear E.
  assert (Hlt : S d < length (skipn 6 u)) by (apply nth_error_Some; congruence).
  rewrite length_skipn in Hlt.
  assert (Hpre : forall k, k < 6 -> nth k u "a"%char = nth k (lit "Slide ") "a"%char).
  { intros k Hk. rewrite <- Hs. rewrite nth_firstn.
    apply Nat.ltb_lt in Hk. rewrite Hk. reflexivity. }
  assert (Hcolon : nth (6 + S d) u "a"%char = ":"%char).
  { rewrite <- nth_skipn. apply nth_error_nth. exact Hn. }
  split; [lia|]. split; [lia|]. split; [rewrite Hpre by lia; reflexivity|]. split.
  - intros k Hk.
    destruct (Nat.lt_ge_cases k 6) as [H6|H6].
    + rewrite Hpre by exact H6.
      destruct k as [|[|[|[|[|[|k]]]]]]; try lia; simpl; discriminate.
    + destruct (Nat.lt_ge_cases k (6 + S d)) as [H7|H7].
      * replace k with (6 + (k - 6)) by lia. rewrite <- nth_skipn.
        intro Heq. pose proof (digits_len_spec (skipn 6 u) (k - 6)) as Hdg.
        rewrite Hd, Heq in Hdg. specialize (Hdg ltac:(lia)). discriminate.
      * replace k with (6 + S d) by lia. rewrite Hcolon. discriminate.
  - replace (7 + S d - 1) with (6 + S d) by lia. exact Hcolon.
Qed.

Lemma marker_at_S s i : marker_at s i = true -> nth i s "a"%char = "S"%char.
Proof.
  unfold marker_at. destruct (marker_len (skipn i s)) as [n|] eqn:E; [|discriminate].
  intros _. destruct (marker_len_shape _ _ E) as [_ [_ [H _]]].
  rewrite nth_skipn, Nat.add_0_r in H. exact H.
Qed.

Lemma marker_at_lt s i : marker_at s i = true -> i + 8 <= length s.
Proof.
  unfold marker_at. destruct (marker_len (skipn i s)) as [n|] eqn:E; [|discriminate].
  intros _. destruct (marker_len_shape _ _ E) as [H8 [Hn _]].
  rewrite length_skipn in Hn. lia.
Qed.

Lemma marker_inside s p n :
  marker_len (skipn p s) = Some n ->
  forall i, p < i < p + n -> marker_at s i = false.
Proof.
  intros E i Hi. destruct (marker_at s i) eqn:Ei; [|reflexivity].
  apply marker_at_S in Ei.
  destruct (marker_len_shape _ _ E) as [_ [_ [_ [Hin _]]]].
  exfalso. apply (Hin (i - p)); [lia|].
  rewrite nth_skipn. replace (p + (i - p)) with i by lia. exact Ei.
Qed.

Lemma marker_end s p n :
  marker_len (skipn p s) = Some n ->
  8 <= n /\ p + n <= length s /\ nth (p + n - 1) s "a"%char = ":"%char.
Proof.
  intro E. destruct (marker_len_shape _ _ E) as [H8 [Hn [_ [_ Hc]]]].
  rewrite length_skipn in Hn. rewrite nth_skipn in Hc.
  split; [lia|]. split; [lia|].
  replace (p + n - 1) with (p + (n - 1)) by lia. exact Hc.
Qed.

Lemma filter_seq_head (f : nat -> bool) k m q rest :
  filter f (seq k m) = q :: rest ->
  k <= q < k + m /\ f q = true /\ (forall i, k <= i < q -> f i = false).
Proof.
  revert k. induction m as [|m IH]; intros k H; simpl in H; [discriminate|].
  destruct (f k) eqn:Ek.
  - inversion H; subst q. split; [lia|]. split; [exact Ek|]. intros i Hi. lia.
  - destruct (IH (S k) H) as [Hq [Hf Hb]].
    split; [lia|]. split; [exact Hf|].
    intros i Hi. destruct (Nat.eq_dec i k) as [->|]; [exact Ek|]. apply Hb. lia.
Qed.

Lemma filter_seq_nil (f : nat -> bool) k m :
  filter f (seq k m) = [] -> forall i, k <= i < k + m -> f i = false.
Proof.
  intros H i Hi. destruct (f i) eqn:Ei; [|reflexivity].
  assert (In i (filter f (seq k m))) by (apply filter_In; split; [apply in_seq; lia|exact Ei]).
  rewrite H in H0. destruct H0.
Qed.

Lemma markers_from_true s pos :
  marker_at s pos = true -> markers_from s pos = pos :: markers_from s (S pos).
Proof.
  intro H. pose proof (marker_at_lt _ _ H) as Hl.
  unfold markers_from. replace (length s - pos) with (S (length s - S pos)) by lia.
  simpl. rewrite H. reflexivity.
Qed.

Lemma markers_from_false s pos :
  marker_at s pos = false -> markers_from s pos = markers_from s (S pos).
Proof.
  intro H. unfold markers_from.
  destruct (Nat.lt_ge_cases pos (length s)).
  - replace (length s - pos) with (S (length s - S pos)) by lia.
    simpl. rewrite H. reflexivity.
  - replace (length s - pos) with 0 by lia. replace (length s - S pos) with 0 by lia.
    reflexivity.
Qed.

Lemma markers_from_gap s a b :
  a <= b -> (forall i, a <= i < b -> marker_at s i = false) ->
  markers_from s a = markers_from s b.
Proof.
  intros Hab. replace b with (a + (b - a)) by lia.
  generalize (b - a) as d. clear b Hab.
  intro d. revert a. induction d as [|d IH]; intros a H; [rewrite Nat.add_0_r; reflexivity|].
  rewrite markers_from_false by (apply H; lia).
  replace (a + S d) with (S a + d) by lia. apply IH. intros i Hi. apply H. lia.
Qed.

Lemma first_from_hit (p : nat -> bool) f k j :
  k <= j < k + f -> p j = true -> (forall i, k <= i < j -> p i = false) ->
  first_from p k f = j.
Proof.
  revert k. induction f as [|f IH]; intros k Hj Hp Hb; [lia|].
  simpl. destruct (p k) eqn:Ek.
  - destruct (Nat.eq_dec k j) as [->|]; [reflexivity|].
    rewrite Hb in Ek; [discriminate|lia].
  - assert (k <> j) by congruence. apply IH; [lia|exact Hp|].
    intros i Hi. apply Hb. lia.
Qed.

Lemma first_from_miss (p : nat -> bool) f k :
  (forall i, k <= i < k + f -> p i = false) -> first_from p k f = k + f.
Proof.
  revert k. induction f as [|f IH]; intros k H; simpl; [lia|].
  rewrite H by lia. rewrite IH; [lia|]. intros i Hi. apply H. lia.
Qed.

Lemma lookahead_ok_eq s j :
  lookahead_ok s j =
  marker_at s j || (j =? length s) ||
  ((S j =? length s) && (if ascii_dec (nth j s "a"%char) newline then true else false)).
Proof.
  unfold lookahead_ok, marker_at. destruct (marker_len (skipn j s)); reflexivity.
Qed.

(** The lazy body of the marker at [p] stops at the next marker, or at the
    end of the text. *)
Lemma lazy_end_spec s p n :
  marker_len (skipn p s) = Some n ->
  lazy_end s (p + n) =
  match markers_from s (p + n) with q :: _ => q | [] => text_end s end.
Proof.
  intro E. destruct (marker_end _ _ _ E) as [H8 [Hle Hc]].
  unfold lazy_end. set (k := p + n) in *.
  destruct (markers_from s k) as [|q rest] eqn:Em.
  - pose proof (filter_seq_nil _ _ _ Em) as Hno.
    unfold text_end.
    destruct (0 <? length s) eqn:Hpos; simpl.
    + destruct (ascii_dec (nth (length s - 1) s "a"%char) newline) as [Hnl|Hnl].
      * assert (k < length s).
        { destruct (Nat.eq_dec k (length s)) as [Hk|]; [|lia].
          exfalso. rewrite Hk in Hc. rewrite Hc in Hnl. discriminate. }
        apply first_from_hit; [lia| |].
        -- rewrite lookahead_ok_eq. replace (S (length s - 1)) with (length s) by lia.
           rewrite Nat.eqb_refl, Hnl. destruct (ascii_dec newline newline); [|congruence].
           rewrite !orb_true_r. reflexivity.
        -- intros i Hi. rewrite lookahead_ok_eq, Hno by lia.
           replace (i =? length s) with false by (symmetry; apply Nat.eqb_neq; lia).
           replace (S i =? length s) with false by (symmetry; apply Nat.eqb_neq; lia).
           reflexivity.
      * rewrite first_from_miss; [lia|].
        intros i Hi. rewrite lookahead_ok_eq, Hno by lia.
        replace (i =? length s) with false by (symmetry; apply Nat.eqb_neq; lia).
        destruct (S i =? length s) eqn:Ei; [|reflexivity].
        apply Nat.eqb_eq in Ei. replace i with (length s - 1) by lia.
        destruct (ascii_dec (nth (length s - 1) s "a"%char) newline); [contradiction|].
        reflexivity.
    + apply Nat.ltb_ge in Hpos. lia.
  - destruct (filter_seq_head _ _ _ _ _ Em) as [Hq [Hm Hb]].
    pose proof (marker_at_lt _ _ Hm).
    apply first_from_hit; [lia| |].
    + rewrite lookahead_ok_eq, Hm. reflexivity.
    + intros i Hi. rewrite lookahead_ok_eq, Hb by lia.
      replace (i =? length s) with false by (symmetry; apply Nat.eqb_neq; lia).
      replace (S i =? length s) with false by (symmetry; apply Nat.eqb_neq; lia).
      reflexivity.
Qed.

Lemma findall_from_spans s fuel pos :
  S (length s) - pos < fuel ->
  findall_from fuel s pos = spans_of s (markers_from s pos).
Proof.
  revert pos. induction fuel as [|f IH]; intros pos Hf; [lia|].
  simpl. destruct (length s <? pos) eqn:Hp.
  - apply Nat.ltb_lt in Hp. unfold markers_from.
    replace (length s - pos) with 0 by lia. reflexivity.
  - apply Nat.ltb_ge in Hp.
    destruct (marker_len (skipn pos s)) as [n|] eqn:E.
    + assert (Ht : marker_at s pos = true) by (unfold marker_at; rewrite E; reflexivity).
      destruct (marker_end _ _ _ E) as [H8 [Hle _]].
      rewrite markers_from_true by exact Ht.
      rewrite (markers_from_gap s (S pos) (pos + n)) by
        (try lia; intros i Hi; apply (marker_inside s pos n E); lia).
      rewrite (lazy_end_spec s pos n E).
      destruct (markers_from s (pos + n)) as [|q rest] eqn:Em.
      * pose proof (filter_seq_nil _ _ _ Em) as Hno.
        assert (Hte : pos + n <= text_end s <= length s).
        { unfold text_end.
          destruct ((0 <? length s) &&
                    (if ascii_dec (nth (length s - 1) s "a"%char) newline then true else false))
            eqn:Hc; [|lia].
          apply andb_true_iff in Hc. destruct Hc as [_ Hc].
          destruct (ascii_dec (nth (length s - 1) s "a"%char) newline) as [Hnl|]; [|discriminate].
          destruct (marker_end _ _ _ E) as [_ [_ Hcol]].
          destruct (Nat.eq_dec (pos + n) (length s)) as [Hk|]; [|lia].
          rewrite Hk in Hcol. rewrite Hcol in Hnl. discriminate. }
        rewrite IH by lia. f_equal.
        rewrite <- (markers_from_gap s (pos + n) (text_end s)); [rewrite Em; reflexivity|lia|].
        intros i Hi. apply Hno. lia.
      * destruct (filter_seq_head _ _ _ _ _ Em) as [Hq [Hm Hb]].
        rewrite IH by lia. f_equal.
        rewrite <- (markers_from_gap s (pos + n) q); [rewrite Em; reflexivity|lia|].
        intros i Hi. apply Hb. lia.
    + assert (Hf' : marker_at s pos = false) by (unfold marker_at; rewrite E; reflexivity).
      rewrite markers_from_false by exact Hf'.
      apply IH. lia.
Qed.

Lemma findall_spans s : findall s = marker_spans s.
Proof. apply findall_from_spans. lia. Qed.

Lemma spans_of_length s ps : length (spans_of s ps) = length ps.
Proof. induction ps as [|p rest IH]; simpl; [reflexivity|]. rewrite IH. reflexivity. Qed.

(** ** Concrete model outputs used below *)

Definition bold_text : str := lit "**Slide 1: Intro**
* one
**Slide 2: End**
* two
**".

Definition cut_text : str := lit "**Slide 1: Intro**
* one
**Slide 2: End**".

(** * Claims *)

(** C1, a defect of App.py. With GOOGLE_API_KEY unset, App1.py's create_presentation
    returns the "Error: Missing API key." string and its handler shows it
    without assembling a stream, but App.py's create_presentation does not
    check the prefix: it writes Gen_AI.pptx, whose only content slide
    carries the error text, returns the file name, and its handler offers
    that file for download. *)
Theorem missing_key_A_writes_error_deck :
  let d := [title_slide (lit "Gen AI");
            mk_slide 1 (lit "A") (lit "Error: Missing API key.") (Some 0)] in
  create_presentation_A (lit "Gen AI") [lit "A"] no_key_world =
    Some (lit "Gen_AI.pptx", save_file (lit "Gen_AI.pptx") d no_key_world) /\
  fst (submit_A (lit "Gen AI") (lit "A") no_key_world) = Offer_A (lit "Gen_AI.pptx") d /\
  create_presentation_B (lit "Gen AI") [lit "A"] no_key_world =
    (inl (lit "Error: Missing API key."), no_key_world) /\
  fst (submit_B (lit "Gen AI") (lit "A") no_key_world) =
    ShowError_B (lit "Error: Missing API key.").
Proof. vm_compute. repeat split. Qed.

(** C2 (counterexample). Variant B's deck, built from a model answer with two
    markers, has no title slide. *)
Lemma deck_B_without_title_slide :
  match fst (submit_B (lit "Gen AI") (lit "A") (answer_world bold_text)) with
  | Offer_B _ d _ => d <> [] /\ filter is_title_slide d = []
  | _ => False
  end.
Proof. vm_compute. split; [discriminate|reflexivity]. Qed.

(** C2 (amended). When variant A's create_presentation returns (its save
    succeeds), the file is named after the title and the deck written is one
    title slide followed, for each topic, by
    [length (split_content content 900) >= 1] content slides; variant B's
    deck holds no title slide, only one content slide per fragment. *)
Theorem deck_shape_variants :
  (forall title topics w file_name w2,
     create_presentation_A title topics w = Some (file_name, w2) ->
     let (content, w1) := generate_content (prompt_A title topics) w in
     let chunks := split_content content 900 in
     let d := title_slide title
              :: flat_map (fun topic => content_slides topic chunks) topics in
     file_name = replace_spaces title ++ lit ".pptx" /\
     w2 = save_file file_name d w1 /\
     1 <= length chunks /\
     length (filter is_title_slide d) = 1 /\
     length d = 1 + length topics * length chunks) /\
  (forall slides d, generate_ppt slides = Some d ->
     filter is_title_slide d = [] /\ length d = length slides).
Proof.
  split.
  - intros title topics w file_name w2 H. rewrite create_presentation_A_eq in H.
    destruct (generate_content (prompt_A title topics) w) as [content w1].
    cbv zeta in H |- *.
    destruct (can_save w1 (replace_spaces title ++ lit ".pptx")); [|discriminate H].
    injection H as <- <-. split; [reflexivity|]. split; [reflexivity|].
    pose proof (split_content_cons content 900) as Hne.
    split; [destruct (split_content content 900); [congruence|simpl; lia]|].
    split.
    + simpl. f_equal.
      induction topics as [|t ts IH]; simpl; [reflexivity|].
      rewrite filter_app, length_app, IH.
      pose proof (content_slides_not_title t (split_content content 900)) as Hf.
      replace (filter is_title_slide (content_slides t (split_content content 900)))
        with (@nil slide); [reflexivity|].
      induction Hf as [|x l Hx _ IHf]; simpl; [reflexivity|].
      rewrite Hx. exact IHf.
    + simpl. f_equal. apply flat_map_length_const. intro t. apply content_slides_length.
  - intros slides d H. destruct (generate_ppt_some _ _ H) as [Hl Hf].
    split; [|exact Hl]. clear H Hl.
    induction Hf as [|x l Hx _ IHf]; simpl; [reflexivity|].
    unfold is_title_slide at 1. rewrite Hx. exact IHf.
Qed.

Lemma deck_shape_variants_witness :
  (create_presentation_A (lit "Gen AI") [lit "A"; lit "B"] (answer_world (lit "x y")) =
     Some (lit "Gen_AI.pptx",
           save_file (lit "Gen_AI.pptx")
             [title_slide (lit "Gen AI"); mk_slide 1 (lit "A") (lit "x y") (Some 0);
              mk_slide 1 (lit "B") (lit "x y") (Some 0)]
             (incr_calls (answer_world (lit "x y")))) /\
   let (content, w1) :=
     generate_content (prompt_A (lit "Gen AI") [lit "A"; lit "B"]) (answer_world (lit "x y")) in
   let chunks := split_content content 900 in
   let d := title_slide (lit "Gen AI")
            :: flat_map (fun topic => content_slides topic chunks) [lit "A"; lit "B"] in
   lit "Gen_AI.pptx" = replace_spaces (lit "Gen AI") ++ lit ".pptx" /\
   save_file (lit "Gen_AI.pptx")
     [title_slide (lit "Gen AI"); mk_slide 1 (lit "A") (lit "x y") (Some 0);
      mk_slide 1 (lit "B") (lit "x y") (Some 0)]
     (incr_calls (answer_world (lit "x y"))) = save_file (lit "Gen_AI.pptx") d w1 /\
   1 <= length chunks /\
   length (filter is_title_slide d) = 1 /\
   length d = 1 + length [lit "A"; lit "B"] * length chunks) /\
  (generate_ppt [lit "Slide 1: Intro
* one"] = Some [mk_slide 1 (lit "1.Intro") (lit "one") None] /\
   filter is_title_slide [mk_slide 1 (lit "1.Intro") (lit "one") None] = [] /\
   length [mk_slide 1 (lit "1.Intro") (lit "one") None] = length [lit "Slide 1: Intro
* one"]).
Proof.
  assert (H0 : create_presentation_A (lit "Gen AI") [lit "A"; lit "B"] (answer_world (lit "x y")) =
     Some (lit "Gen_AI.pptx",
           save_file (lit "Gen_AI.pptx")
             [title_slide (lit "Gen AI"); mk_slide 1 (lit "A") (lit "x y") (Some 0);
              mk_slide 1 (lit "B") (lit "x y") (Some 0)]
             (incr_calls (answer_world (lit "x y"))))) by (vm_compute; reflexivity).
  assert (H : generate_ppt [lit "Slide 1: Intro
* one"] = Some [mk_slide 1 (lit "1.Intro") (lit "one") None]) by (vm_compute; reflexivity).
  split.
  - split; [exact H0|]. exact (proj1 deck_shape_variants _ _ _ _ _ H0).
  - split; [exact H|]. exact (proj2 deck_shape_variants _ _ H).
Defined.

(** C3 (counterexample). A model answer whose last fragment has lost its
    newline: process_slide_title returns None for it, generate_ppt fails on
    the unpacking, and the submit handler ends in an exception instead of
    assembling the other fragment. *)
Lemma unparsed_fragment_crashes :
  remove_double_asteris (split_into_slides cut_text) = [lit "Slide 1: Intro
* one
"; lit "Slide 2: End"] /\
  process_slide_title (lit "Slide 2: End") = None /\
  generate_ppt [lit "Slide 1: Intro
* one
"; lit "Slide 2: End"] = None /\
  fst (submit_B (lit "Gen AI") (lit "A") (answer_world cut_text)) = Crash_B.
Proof. vm_compute. repeat split. Qed.

(** C3 (amended). When the fragments of a successful generation include one
    that process_slide_title cannot decompose, the submit handler ends in an
    exception and no deck is produced; when every fragment decomposes, the
    deck has one slide per fragment. *)
Theorem unparsed_fragment_aborts_deck title topics_input w slides w1 :
  parse_topics topics_input <> [] ->
  create_presentation_B title (parse_topics topics_input) w = (inr slides, w1) ->
  (Exists (fun sl => process_slide_title sl = None) slides ->
     fst (submit_B title topics_input w) = Crash_B) /\
  (Forall (fun sl => process_slide_title sl <> None) slides ->
     exists d, fst (submit_B title topics_input w) =
               Offer_B slides d (replace_spaces title ++ lit "_presentation.pptx") /\
               length d = length slides).
Proof.
  intros Hne Hc. unfold submit_B.
  revert Hc. destruct (parse_topics topics_input) as [|t ts]; [congruence|].
  intro Hc. rewrite Hc. cbv iota beta. unfold offer_B. split.
  - intro Hex. apply generate_ppt_none in Hex. rewrite Hex. reflexivity.
  - intro Hall. destruct (generate_ppt slides) as [d|] eqn:G.
    + exists d. split; [reflexivity|]. apply (generate_ppt_some _ _ G).
    + apply generate_ppt_none in G. exfalso.
      apply Exists_exists in G. destruct G as [x [Hx Hn]].
      rewrite Forall_forall in Hall. exact (Hall x Hx Hn).
Qed.

Lemma unparsed_fragment_aborts_deck_witness :
  parse_topics (lit "A") <> [] /\
  create_presentation_B (lit "Gen AI") (parse_topics (lit "A")) (answer_world cut_text) =
    (inr [lit "Slide 1: Intro
* one
"; lit "Slide 2: End"], incr_calls (answer_world cut_text)) /\
  (Exists (fun sl => process_slide_title sl = None) [lit "Slide 1: Intro
* one
"; lit "Slide 2: End"] ->
     fst (submit_B (lit "Gen AI") (lit "A") (answer_world cut_text)) = Crash_B).
Proof.
  assert (H1 : parse_topics (lit "A") <> []) by (vm_compute; discriminate).
  assert (H2 : create_presentation_B (lit "Gen AI") (parse_topics (lit "A")) (answer_world cut_text) =
    (inr [lit "Slide 1: Intro
* one
"; lit "Slide 2: End"], incr_calls (answer_world cut_text))) by (vm_compute; reflexivity).
  split; [exact H1|]. split; [exact H2|].
  exact (proj1 (unparsed_fragment_aborts_deck _ _ _ _ _ H1 H2)).
Defined.

(** C4. Every chunk split_content returns is at most max_length long, for
    every text and every positive max_length (a word longer than the limit
    is cut hard). *)
Theorem split_content_chunk_bound (content : str) (max_length : nat) :
  0 < max_length ->
  Forall (fun chunk => length chunk <= max_length) (split_content content max_length).
Proof.
  intro Hm. apply (split_runs_bound max_length content).
  apply split_content_runs. exact Hm.
Qed.

Lemma split_content_chunk_bound_witness :
  0 < 3 /\ Forall (fun chunk => length chunk <= 3) (split_content (lit "abcdefg hi") 3).
Proof.
  split; [lia|]. apply (split_content_chunk_bound (lit "abcdefg hi") 3). lia.
Defined.

(** C5. The chunks of split_content, each followed by the whitespace the
    loop stripped after it, concatenate back to the input. *)
Theorem split_content_rejoin_original (content : str) (max_length : nat) :
  0 < max_length ->
  exists gaps,
    length gaps = length (split_content content max_length) /\
    Forall (fun g => all_space g = true) gaps /\
    rejoin (split_content content max_length) gaps = content.
Proof.
  intro Hm. apply (split_runs_rejoin max_length content).
  apply split_content_runs. exact Hm.
Qed.

Lemma split_content_rejoin_original_witness :
  0 < 3 /\
  exists gaps,
    length gaps = length (split_content (lit " ab  cdefg ") 3) /\
    Forall (fun g => all_space g = true) gaps /\
    rejoin (split_content (lit " ab  cdefg ") 3) gaps = lit " ab  cdefg ".
Proof.
  split; [lia|]. apply (split_content_rejoin_original (lit " ab  cdefg ") 3). lia.
Defined.

(** C6 (counterexample). The single marker of "Slide 1: Intro\nx" spans the
    whole text, but the fragment returned is "**" followed by that span
    without its last two characters. *)
Lemma split_into_slides_fragment_not_span :
  marker_spans (lit "Slide 1: Intro
x") = [lit "Slide 1: Intro
x"] /\
  split_into_slides (lit "Slide 1: Intro
x") = [lit "**Slide 1: Intro"].
Proof. vm_compute. split; reflexivity. Qed.

(** C6 (amended). For every text, split_into_slides returns one fragment per
    occurrence of [Slide <digits>:]; the i-th is "**" followed by the span
    from the i-th marker up to the next marker (or the end of the text, a
    final newline excluded) with its last two characters removed. *)
Theorem split_into_slides_marker_spans (content : str) :
  split_into_slides content = map (fun sp => wrap_bold (drop_last2 sp)) (marker_spans content) /\
  length (split_into_slides content) = length (marker_positions content).
Proof.
  unfold split_into_slides. rewrite findall_spans. split; [reflexivity|].
  rewrite length_map. apply spans_of_length.
Qed.

(** C7. For strings without "**", removing the marker after the segmenter's
    bold wrapping gives the strings back. *)
Theorem remove_bold_after_wrap (xs : list str) :
  Forall (fun x => has_dstar x = false) xs ->
  remove_double_asteris (map wrap_bold xs) = xs.
Proof.
  induction 1 as [|x l Hx _ IH]; [reflexivity|].
  unfold remove_double_asteris in *. simpl. rewrite IH.
  f_equal. apply remove_dstar_id. exact Hx.
Qed.

Lemma remove_bold_after_wrap_witness :
  Forall (fun x => has_dstar x = false) [lit "*Slide 1: A*"; lit "x*y"] /\
  remove_double_asteris (map wrap_bold [lit "*Slide 1: A*"; lit "x*y"]) =
    [lit "*Slide 1: A*"; lit "x*y"].
Proof.
  assert (H : Forall (fun x => has_dstar x = false) [lit "*Slide 1: A*"; lit "x*y"])
    by (repeat constructor).
  split; [exact H|]. exact (remove_bold_after_wrap _ H).
Defined.

Lemma content_slides_titles topic chunks :
  Forall (fun sl => title_text sl = topic) (content_slides topic chunks).
Proof.
  destruct chunks as [|c cs]; simpl; constructor; [reflexivity|].
  apply Forall_forall. intros x Hx. apply in_map_iff in Hx.
  destruct Hx as [y [<- _]]. reflexivity.
Qed.

(** C8. In variant A the service is called at most once per run (once when
    the key is set), before the loop over the topics; when the run returns,
    the saved deck is the title slide followed by one block of slides per
    topic, in the order of the topics, each block titled with its topic and
    carrying as bodies the same chunks of that single blob. *)
Theorem topics_share_one_blob (title : str) (topics : list str) (w : world)
    (file_name : str) (w1 : world) :
  create_presentation_A title topics w = Some (file_name, w1) ->
  exists content blocks,
    fst (generate_content (prompt_A title topics) w) = content /\
    split_content content 900 <> [] /\
    lookup_file file_name (files w1) = Some (title_slide title :: concat blocks) /\
    Forall2 (fun topic b => Forall (fun sl => title_text sl = topic) b /\
                            map body_text b = split_content content 900) topics blocks /\
    calls w1 = (if key_missing (api_key w) then calls w else S (calls w)).
Proof.
  rewrite create_presentation_A_eq. intro H.
  pose proof (generate_content_calls (prompt_A title topics) w) as Hc.
  destruct (generate_content (prompt_A title topics) w) as [content v1].
  simpl in Hc. cbv zeta in H.
  destruct (can_save v1 (replace_spaces title ++ lit ".pptx")); [|discriminate H].
  injection H as <- <-.
  exists content, (map (fun topic => content_slides topic (split_content content 900)) topics).
  split; [reflexivity|]. split; [apply split_content_cons|]. split.
  { unfold save_file. cbn [files]. rewrite lookup_file_head, flat_map_concat_map.
    reflexivity. }
  split; [|exact Hc].
  induction topics as [|t ts IH]; [constructor|]. cbn [map]. constructor; [|exact IH].
  split; [apply content_slides_titles|apply content_slides_bodies].
Qed.

Lemma topics_share_one_blob_witness :
  create_presentation_A (lit "Gen AI") [lit "A"; lit "B"] (answer_world (lit "x y")) =
    Some (lit "Gen_AI.pptx",
          save_file (lit "Gen_AI.pptx")
            [title_slide (lit "Gen AI"); mk_slide 1 (lit "A") (lit "x y") (Some 0);
             mk_slide 1 (lit "B") (lit "x y") (Some 0)]
            (incr_calls (answer_world (lit "x y")))) /\
  exists content blocks,
    fst (generate_content (prompt_A (lit "Gen AI") [lit "A"; lit "B"])
           (answer_world (lit "x y"))) = content /\
    split_content content 900 <> [] /\
    lookup_file (lit "Gen_AI.pptx")
      (files (save_file (lit "Gen_AI.pptx")
                [title_slide (lit "Gen AI"); mk_slide 1 (lit "A") (lit "x y") (Some 0);
                 mk_slide 1 (lit "B") (lit "x y") (Some 0)]
                (incr_calls (answer_world (lit "x y"))))) =
      Some (title_slide (lit "Gen AI") :: concat blocks) /\
    Forall2 (fun topic b => Forall (fun sl => title_text sl = topic) b /\
                            map body_text b = split_content content 900)
      [lit "A"; lit "B"] blocks /\
    calls (save_file (lit "Gen_AI.pptx")
             [title_slide (lit "Gen AI"); mk_slide 1 (lit "A") (lit "x y") (Some 0);
              mk_slide 1 (lit "B") (lit "x y") (Some 0)]
             (incr_calls (answer_world (lit "x y")))) =
      (if key_missing (api_key (answer_world (lit "x y")))
       then calls (answer_world (lit "x y")) else S (calls (answer_world (lit "x y")))).
Proof.
  assert (H : create_presentation_A (lit "Gen AI") [lit "A"; lit "B"] (answer_world (lit "x y")) =
    Some (lit "Gen_AI.pptx",
          save_file (lit "Gen_AI.pptx")
            [title_slide (lit "Gen AI"); mk_slide 1 (lit "A") (lit "x y") (Some 0);
             mk_slide 1 (lit "B") (lit "x y") (Some 0)]
            (incr_calls (answer_world (lit "x y"))))) by (vm_compute; reflexivity).
  split; [exact H|]. exact (topics_share_one_blob _ _ _ _ _ H).
Defined.

(** C9. For max_length >= 1 every loop iteration of split_content shortens
    the remaining text (also when the only space of the window is at index 0
    or there is none), so the loop terminates with the value split_content
    computes, and that list has a first chunk, the empty text included. *)
Theorem split_content_terminates (content : str) (max_length : nat) :
  1 <= max_length ->
  (forall c, max_length < length c ->
     length (snd (split_step max_length c)) < length c) /\
  split_runs max_length content (split_content content max_length) /\
  (forall chunks, split_runs max_length content chunks ->
     chunks = split_content content max_length) /\
  hd_error (split_content content max_length) <> None.
Proof.
  intro Hm. split; [intros c Hc; apply split_step_shortens; lia|].
  assert (Hr : split_runs max_length content (split_content content max_length))
    by (apply split_content_runs; lia).
  split; [exact Hr|]. split.
  - intros chunks H. exact (split_runs_det _ _ _ _ H Hr).
  - pose proof (split_content_cons content max_length) as Hne.
    destruct (split_content content max_length); [congruence|discriminate].
Qed.

Lemma split_content_terminates_witness :
  1 <= 1 /\
  split_runs 1 (lit " a b") (split_content (lit " a b") 1) /\
  hd_error (split_content [] 900) <> None.
Proof.
  split; [lia|]. split.
  - exact (proj1 (proj2 (split_content_terminates (lit " a b") 1 ltac:(lia)))).
  - exact (proj2 (proj2 (proj2 (split_content_terminates [] 900 ltac:(lia))))).
Defined.

(** C10. In variant B a model answer that does not start with "Error" and
    holds no [Slide <digits>:] marker gives no fragment, and the submit
    handler reports success and offers a deck with zero slides. *)
Theorem marker_free_text_offers_empty_deck title topics_input w text :
  key_missing (api_key w) = false ->
  parse_topics topics_input <> [] ->
  gemini w (calls w) (prompt_B title (parse_topics topics_input)) = Some text ->
  starts_with (lit "Error") text = false ->
  marker_positions text = [] ->
  fst (submit_B title topics_input w) =
    Offer_B [] [] (replace_spaces title ++ lit "_presentation.pptx").
Proof.
  intros Hk Hne Hg He Hm. unfold submit_B.
  revert Hg. destruct (parse_topics topics_input) as [|t ts]; [congruence|].
  intro Hg. unfold create_presentation_B, generate_content.
  rewrite Hk, Hg, He.
  assert (Hs : split_into_slides text = []).
  { unfold split_into_slides. rewrite findall_spans. unfold marker_spans.
    rewrite Hm. reflexivity. }
  rewrite Hs. reflexivity.
Qed.

Lemma marker_free_text_offers_empty_deck_witness :
  fst (submit_B (lit "Gen AI") (lit "A") (answer_world (lit "Here is your deck."))) =
    Offer_B [] [] (lit "Gen_AI_presentation.pptx").
Proof.
  apply (marker_free_text_offers_empty_deck (lit "Gen AI") (lit "A")
           (answer_world (lit "Here is your deck.")) (lit "Here is your deck."));
    vm_compute; first [reflexivity | discriminate].
Defined.

(** * Further properties of the two scripts *)

(** ** Stripping and splitting *)

Lemma lstrip_idem x : lstrip (lstrip x) = lstrip x.
Proof.
  induction x as [|c t IH]; simpl; [reflexivity|].
  destruct (is_space c) eqn:Ec; [exact IH|simpl; rewrite Ec; reflexivity].
Qed.

Lemma lstrip_prefix p q : lstrip (p ++ q) = p ++ q -> lstrip p = p.
Proof.
  destruct p as [|c p]; [reflexivity|]. simpl. destruct (is_space c); [|reflexivity].
  intro H. pose proof (lstrip_length (p ++ q)) as Hl. rewrite H in Hl.
  simpl in Hl. lia.
Qed.

Lemma rstrip_prefix y : exists tr, y = rstrip y ++ tr.
Proof.
  destruct (lstrip_split (rev y)) as [lead [_ H]].
  exists (rev lead). unfold rstrip.
  rewrite <- rev_app_distr, <- H, rev_involutive. reflexivity.
Qed.

Lemma lstrip_strip x : lstrip (strip x) = strip x.
Proof.
  unfold strip. destruct (rstrip_prefix (lstrip x)) as [tr Htr].
  apply (lstrip_prefix _ tr). rewrite <- Htr. apply lstrip_idem.
Qed.

Lemma rstrip_idem x : rstrip (rstrip x) = rstrip x.
Proof. unfold rstrip. rewrite rev_involutive, lstrip_idem. reflexivity. Qed.

Lemma strip_idem x : strip (strip x) = strip x.
Proof.
  unfold strip at 1. rewrite lstrip_strip. unfold strip. apply rstrip_idem.
Qed.

Lemma in_strip c x : In c (strip x) -> In c x.
Proof.
  destruct (strip_split x) as [a [b [_ [_ H]]]]. intro Hc.
  rewrite H. apply in_or_app. right. apply in_or_app. left. exact Hc.
Qed.

Lemma all_space_lstrip x : all_space x = true -> lstrip x = [].
Proof.
  induction x as [|c t IH]; simpl; [reflexivity|].
  intro H. apply andb_true_iff in H. destruct H as [Hc Ht]. rewrite Hc. apply IH, Ht.
Qed.

Lemma split_on_no_sep c s : Forall (fun p => ~ In c p) (split_on c s).
Proof.
  induction s as [|x t IH]; simpl; [constructor; [intros []|constructor]|].
  destruct (ascii_dec x c) as [->|Hx]; [constructor; [intros []|exact IH]|].
  destruct (split_on c t) as [|y ys]; [constructor; [intros [H|[]]; congruence|constructor]|].
  inversion IH as [|? ? Hy Hys]; subst.
  constructor; [|exact Hys]. intros [H|H]; [congruence|contradiction].
Qed.

Lemma split_on_all_space c s :
  all_space s = true -> Forall (fun p => all_space p = true) (split_on c s).
Proof.
  induction s as [|x t IH]; simpl; intro H; [repeat constructor|].
  apply andb_true_iff in H. destruct H as [Hx Ht]. specialize (IH Ht).
  destruct (ascii_dec x c); [constructor; [reflexivity|exact IH]|].
  destruct (split_on c t) as [|y ys].
  - constructor; [simpl; rewrite Hx; reflexivity|constructor].
  - inversion IH as [|? ? Hy Hys]; subst.
    constructor; [simpl; rewrite Hx, Hy; reflexivity|exact Hys].
Qed.

Lemma join_no_char c sep l :
  ~ In c sep -> Forall (fun p => ~ In c p) l -> ~ In c (join sep l).
Proof.
  intros Hs Hl. induction Hl as [|x l Hx Hl IH]; [intros []|].
  destruct l as [|y l]; [exact Hx|].
  change (~ In c (x ++ sep ++ join sep (y :: l))).
  intro H. apply in_app_or in H. destruct H as [H|H]; [contradiction|].
  apply in_app_or in H. destruct H; contradiction.
Qed.

Lemma in_lstrip_by p c s : In c (lstrip_by p s) -> In c s.
Proof.
  induction s as [|x t IH]; simpl; [auto|].
  destruct (p x); [intro H; right; apply IH, H|auto].
Qed.

Lemma in_strip_star_space c s : In c (strip_star_space s) -> In c s.
Proof.
  unfold strip_star_space. intro H.
  apply in_rev, in_lstrip_by, in_rev, in_lstrip_by in H. exact H.
Qed.

Lemma take_line_no_newline t : ~ In newline (take_line t).
Proof.
  induction t as [|c t IH]; simpl; [auto|].
  destruct (ascii_dec c newline); [auto|]. intros [H|H]; [congruence|contradiction].
Qed.

Lemma digits_prefix r :
  Forall (fun c => is_digit c = true) (firstn (digits_len r) r) /\
  length (firstn (digits_len r) r) = digits_len r.
Proof.
  induction r as [|c t [IH1 IH2]]; simpl; [split; [constructor|reflexivity]|].
  destruct (is_digit c) eqn:Ec; simpl; [split; [constructor; assumption|lia]|].
  split; [constructor|reflexivity].
Qed.

Lemma strip_all_space x : all_space x = true -> strip x = [].
Proof. intro H. unfold strip. rewrite all_space_lstrip by exact H. reflexivity. Qed.

Lemma generate_content_files prompt w content w1 :
  generate_content prompt w = (content, w1) -> files w1 = files w.
Proof.
  unfold generate_content. destruct (key_missing (api_key w)).
  - intro H. inversion H. reflexivity.
  - destruct (gemini w (calls w) prompt); intro H; inversion H; reflexivity.
Qed.

Lemma replace_spaces_no_space s : ~ In space (replace_spaces s).
Proof.
  unfold replace_spaces. intro H. apply in_map_iff in H. destruct H as [c [Hc _]].
  destruct (ascii_dec c space); [discriminate|congruence].
Qed.

Lemma flat_map_single_chunk msg topics :
  flat_map (fun topic => content_slides topic [msg]) topics =
  map (fun topic => mk_slide 1 topic msg (Some 0)) topics.
Proof.
  induction topics as [|t ts IH]; [reflexivity|].
  cbn [flat_map map]. rewrite IH. reflexivity.
Qed.

Lemma parse_topics_shape (topics_input : str) :
  Forall (fun t => nonempty t = true /\ strip t = t /\ ~ In newline t)
         (parse_topics topics_input).
Proof.
  unfold parse_topics. apply Forall_forall. intros x Hx.
  apply in_map_iff in Hx. destruct Hx as [t [<- Ht]].
  apply filter_In in Ht. destruct Ht as [Hin Hne].
  split; [exact Hne|]. split; [apply strip_idem|].
  intro Hn. apply in_strip in Hn.
  pose proof (split_on_no_sep newline topics_input) as Hs.
  rewrite Forall_forall in Hs. exact (Hs t Hin Hn).
Qed.

(** X1. Every topic the handlers pass on is non-empty, carries no leading or
    trailing whitespace and holds no newline. *)
Theorem parse_topics_clean (topics_input : str) :
  Forall (fun t => nonempty t = true /\ strip t = t /\ ~ In newline t)
         (parse_topics topics_input).
Proof. apply parse_topics_shape. Qed.

(** X2. A topics field holding only whitespace makes both handlers report
    that a topic is needed, with the service not called and no file written. *)
Theorem blank_topics_input_stops (title topics_input : str) (w : world) :
  all_space topics_input = true ->
  submit_A title topics_input w = (NoTopics_A, w) /\
  submit_B title topics_input w = (NoTopics_B, w).
Proof.
  intro H.
  assert (Hp : parse_topics topics_input = []).
  { unfold parse_topics.
    pose proof (split_on_all_space newline _ H) as Hf.
    induction Hf as [|p l Hp Hl IH]; [reflexivity|].
    simpl. rewrite strip_all_space by exact Hp. exact IH. }
  unfold submit_A, submit_B. rewrite Hp. split; reflexivity.
Qed.

Lemma blank_topics_input_stops_witness :
  all_space (lit "  
	 ") = true /\
  submit_A (lit "Gen AI") (lit "  
	 ") no_key_world = (NoTopics_A, no_key_world) /\
  submit_B (lit "Gen AI") (lit "  
	 ") no_key_world = (NoTopics_B, no_key_world).
Proof.
  assert (H : all_space (lit "  
	 ") = true) by (vm_compute; reflexivity).
  split; [exact H|]. exact (blank_topics_input_stops _ _ _ H).
Defined.

(** X3. In variant B, with at least one topic, a missing key, a failing
    service call, or a model answer that itself starts with "Error" all end
    in an error message, with no deck built and no file written; the service
    is not called when the key is missing and called once otherwise. *)
Theorem submit_B_error_paths (title topics_input : str) (w : world) :
  parse_topics topics_input <> [] ->
  (key_missing (api_key w) = true ->
     submit_B title topics_input w = (ShowError_B (lit "Error: Missing API key."), w)) /\
  (key_missing (api_key w) = false ->
     gemini w (calls w) (prompt_B title (parse_topics topics_input)) = None ->
     submit_B title topics_input w =
       (ShowError_B (lit "Error generating content."), incr_calls w)) /\
  (forall text, key_missing (api_key w) = false ->
     gemini w (calls w) (prompt_B title (parse_topics topics_input)) = Some text ->
     starts_with (lit "Error") text = true ->
     submit_B title topics_input w = (ShowError_B text, incr_calls w)).
Proof.
  intro Hne. unfold submit_B.
  destruct (parse_topics topics_input) as [|t ts] eqn:Ep; [congruence|].
  unfold create_presentation_B, generate_content.
  split; [|split].
  - intro Hk. rewrite Hk. reflexivity.
  - intros Hk Hg. rewrite Hk, Hg. reflexivity.
  - intros text Hk Hg He. rewrite Hk, Hg, He. cbv iota beta. rewrite He. reflexivity.
Qed.

Lemma submit_B_error_paths_witness :
  parse_topics (lit "A") <> [] /\
  submit_B (lit "Gen AI") (lit "A") (answer_world (lit "Error 429: quota exceeded")) =
    (ShowError_B (lit "Error 429: quota exceeded"),
     incr_calls (answer_world (lit "Error 429: quota exceeded"))).
Proof.
  assert (H : parse_topics (lit "A") <> []) by (vm_compute; discriminate).
  split; [exact H|].
  apply (proj2 (proj2 (submit_B_error_paths (lit "Gen AI") (lit "A")
           (answer_world (lit "Error 429: quota exceeded")) H)));
    vm_compute; reflexivity.
Defined.

(** X4. In variant A, a missing key or a failing service call does not stop
    the run: when the file can be written, the deck written is the title
    slide, then for each topic one content slide whose body is the error
    text. *)
Theorem create_presentation_A_error_deck (title : str) (topics : list str) (w : world) :
  key_missing (api_key w) = true \/ gemini w (calls w) (prompt_A title topics) = None ->
  can_save w (replace_spaces title ++ lit ".pptx") = true ->
  let msg := if key_missing (api_key w) then lit "Error: Missing API key."
             else lit "Error generating content." in
  let w1 := if key_missing (api_key w) then w else incr_calls w in
  create_presentation_A title topics w =
    Some (replace_spaces title ++ lit ".pptx",
          save_file (replace_spaces title ++ lit ".pptx")
            (title_slide title :: map (fun topic => mk_slide 1 topic msg (Some 0)) topics) w1).
Proof.
  intros H Hs. cbv zeta. rewrite create_presentation_A_eq. unfold generate_content.
  destruct (key_missing (api_key w)).
  - change (split_content (lit "Error: Missing API key.") 900)
      with [lit "Error: Missing API key."].
    cbv zeta. rewrite Hs, flat_map_single_chunk. reflexivity.
  - destruct H as [H|H]; [discriminate|]. rewrite H.
    change (split_content (lit "Error generating content.") 900)
      with [lit "Error generating content."].
    cbv zeta. unfold incr_calls at 1. cbn [can_save]. rewrite Hs, flat_map_single_chunk.
    reflexivity.
Qed.

Lemma create_presentation_A_error_deck_witness :
  (key_missing (api_key no_key_world) = true \/
   gemini no_key_world (calls no_key_world) (prompt_A (lit "Gen AI") [lit "A"; lit "B"]) = None) /\
  can_save no_key_world (replace_spaces (lit "Gen AI") ++ lit ".pptx") = true /\
  create_presentation_A (lit "Gen AI") [lit "A"; lit "B"] no_key_world =
    Some (lit "Gen_AI.pptx",
          save_file (lit "Gen_AI.pptx")
            [title_slide (lit "Gen AI");
             mk_slide 1 (lit "A") (lit "Error: Missing API key.") (Some 0);
             mk_slide 1 (lit "B") (lit "Error: Missing API key.") (Some 0)] no_key_world).
Proof.
  assert (H : key_missing (api_key no_key_world) = true \/
   gemini no_key_world (calls no_key_world) (prompt_A (lit "Gen AI") [lit "A"; lit "B"]) = None)
    by (left; reflexivity).
  assert (Hs : can_save no_key_world (replace_spaces (lit "Gen AI") ++ lit ".pptx") = true)
    by reflexivity.
  split; [exact H|]. split; [exact Hs|].
  exact (create_presentation_A_error_deck _ _ _ H Hs).
Defined.

(** X5. Variant A names the file after the title with spaces replaced, so a
    second run with the same title writes the same name and its deck
    shadows the first one. *)
Theorem create_presentation_A_overwrites (title : str) (topics1 topics2 : list str)
    (w w1 w2 : world) (f1 f2 : str) :
  create_presentation_A title topics1 w = Some (f1, w1) ->
  create_presentation_A title topics2 w1 = Some (f2, w2) ->
  f1 = f2 /\ ~ In space f1 /\
  exists d1 d2, files w1 = (f1, d1) :: files w /\
                files w2 = (f1, d2) :: files w1 /\
                lookup_file f1 (files w2) = Some d2.
Proof.
  rewrite !create_presentation_A_eq.
  destruct (generate_content (prompt_A title topics1) w) as [c1 v1] eqn:G1.
  destruct (generate_content (prompt_A title topics2) w1) as [c2 v2] eqn:G2.
  intros H1 H2. cbv zeta in H1, H2.
  destruct (can_save v1 (replace_spaces title ++ lit ".pptx")); [|discriminate H1].
  inversion H1; subst f1 w1.
  destruct (can_save v2 (replace_spaces title ++ lit ".pptx")); [|discriminate H2].
  inversion H2; subst f2 w2.
  apply generate_content_files in G1. apply generate_content_files in G2.
  split; [reflexivity|]. split.
  - intro H. apply in_app_or in H. destruct H as [H|H];
      [exact (replace_spaces_no_space title H)|simpl in H; intuition discriminate].
  - eexists _, _. unfold save_file in G2 |- *. cbn [files] in G2 |- *.
    rewrite G2, G1. split; [reflexivity|]. split; [reflexivity|].
    apply lookup_file_head.
Qed.

Lemma create_presentation_A_overwrites_witness :
  let w1 := snd (match create_presentation_A (lit "Gen AI") [lit "A"] no_key_world with
                 | Some r => r | None => (nil, no_key_world) end) in
  create_presentation_A (lit "Gen AI") [lit "A"] no_key_world = Some (lit "Gen_AI.pptx", w1) /\
  lit "Gen_AI.pptx" = lit "Gen_AI.pptx" /\ ~ In space (lit "Gen_AI.pptx").
Proof.
  cbv zeta.
  assert (H1 : create_presentation_A (lit "Gen AI") [lit "A"] no_key_world =
    Some (lit "Gen_AI.pptx", save_file (lit "Gen_AI.pptx")
      [title_slide (lit "Gen AI"); mk_slide 1 (lit "A") (lit "Error: Missing API key.") (Some 0)]
      no_key_world)) by (vm_compute; reflexivity).
  assert (H2 : create_presentation_A (lit "Gen AI") [lit "B"]
    (save_file (lit "Gen_AI.pptx")
      [title_slide (lit "Gen AI"); mk_slide 1 (lit "A") (lit "Error: Missing API key.") (Some 0)]
      no_key_world) = Some (lit "Gen_AI.pptx", save_file (lit "Gen_AI.pptx")
      [title_slide (lit "Gen AI"); mk_slide 1 (lit "B") (lit "Error: Missing API key.") (Some 0)]
      (save_file (lit "Gen_AI.pptx")
        [title_slide (lit "Gen AI"); mk_slide 1 (lit "A") (lit "Error: Missing API key.") (Some 0)]
        no_key_world))) by (vm_compute; reflexivity).
  destruct (create_presentation_A_overwrites _ _ _ _ _ _ _ _ H1 H2) as [He [Hn _]].
  rewrite H1. split; [reflexivity|]. split; [exact He|exact Hn].
Defined.

(** ** The marker-based segmenter and the slide parser *)

Lemma has_dstar_cons1 c r : is_star c = false -> has_dstar (c :: r) = has_dstar r.
Proof. intro H. cbn [has_dstar]. rewrite H. reflexivity. Qed.

Lemma has_dstar_cons2 c d r :
  is_star d = false -> has_dstar (c :: d :: r) = has_dstar (d :: r).
Proof.
  intro H. change (has_dstar (c :: d :: r)) with
    ((is_star c && is_star d) || has_dstar (d :: r)).
  rewrite H, andb_false_r. reflexivity.
Qed.

Lemma remove_dstar_clean_aux n :
  forall s, length s <= n -> has_dstar (remove_dstar s) = false.
Proof.
  induction n as [|n IH]; intros s Hs.
  - destruct s; [reflexivity|simpl in Hs; lia].
  - destruct s as [|c t]; [reflexivity|]. simpl in Hs.
    destruct (is_star c) eqn:Ec.
    + destruct t as [|d t'].
      * simpl. rewrite Ec. cbn [has_dstar]. rewrite andb_false_r. reflexivity.
      * destruct (is_star d) eqn:Ed.
        -- simpl. rewrite Ec, Ed. apply IH. simpl in Hs. lia.
        -- assert (E : remove_dstar (c :: d :: t') = c :: remove_dstar (d :: t'))
             by (simpl; rewrite Ec, Ed; reflexivity).
           assert (E2 : remove_dstar (d :: t') = d :: remove_dstar t')
             by (simpl; rewrite Ed; reflexivity).
           rewrite E, E2, has_dstar_cons2 by exact Ed. rewrite <- E2.
           apply IH. lia.
    + assert (E : remove_dstar (c :: t) = c :: remove_dstar t)
        by (simpl; rewrite Ec; reflexivity).
      rewrite E, has_dstar_cons1 by exact Ec. apply IH. lia.
Qed.

(** X6. No string remove_double_asteris returns contains "**". *)
Theorem remove_double_asteris_clean (input_list : list str) :
  Forall (fun x => has_dstar x = false) (remove_double_asteris input_list).
Proof.
  unfold remove_double_asteris. apply Forall_forall. intros x Hx.
  apply in_map_iff in Hx. destruct Hx as [s [<- _]].
  apply (remove_dstar_clean_aux (length s)). lia.
Qed.

Lemma first_from_ge (p : nat -> bool) k f : k <= first_from p k f.
Proof.
  revert k. induction f as [|f IH]; intro k; simpl; [lia|].
  destruct (p k); [lia|]. specialize (IH (S k)). lia.
Qed.

Lemma marker_len_starts u n : marker_len u = Some n -> starts_with (lit "Slide ") u = true.
Proof. unfold marker_len. destruct (starts_with (lit "Slide ") u); [auto|discriminate]. Qed.

Lemma starts_with_firstn_keep p u k :
  starts_with p u = true -> length p <= k -> starts_with p (firstn k u) = true.
Proof.
  revert u k. induction p as [|c p IH]; intros u k H Hk; [reflexivity|].
  destruct u as [|d u]; [discriminate|]. destruct k as [|k]; [simpl in Hk; lia|].
  simpl in H |- *. destruct (ascii_dec c d); [|discriminate].
  apply IH; [exact H|simpl in Hk; lia].
Qed.

Lemma findall_from_shape s fuel pos :
  Forall (fun m => starts_with (lit "Slide ") m = true /\ 8 <= length m)
         (findall_from fuel s pos).
Proof.
  revert pos. induction fuel as [|f IH]; intro pos; cbn [findall_from]; [constructor|].
  destruct (length s <? pos); [constructor|].
  destruct (marker_len (skipn pos s)) as [n|] eqn:E; [|apply IH].
  constructor; [|apply IH].
  destruct (marker_len_shape _ _ E) as [H8 [Hn _]].
  pose proof (first_from_ge (lookahead_ok s) (pos + n) (length s - (pos + n))) as Hj.
  fold (lazy_end s (pos + n)) in Hj. unfold slice. split.
  - apply starts_with_firstn_keep; [exact (marker_len_starts _ _ E)|simpl; lia].
  - rewrite length_firstn. lia.
Qed.

(** X7. Every fragment variant B's create_presentation passes on (split,
    then stripped of "**") starts with "Slide ". *)
Theorem fragments_start_with_slide (content : str) :
  Forall (fun sl => starts_with (lit "Slide ") sl = true)
         (remove_double_asteris (split_into_slides content)).
Proof.
  unfold remove_double_asteris, split_into_slides, findall.
  pose proof (findall_from_shape content (S (S (length content))) 0) as Hf.
  apply Forall_forall. intros x Hx.
  apply in_map_iff in Hx. destruct Hx as [y [<- Hy]].
  apply in_map_iff in Hy. destruct Hy as [m [<- Hm]].
  rewrite Forall_forall in Hf. destruct (Hf m Hm) as [Hs Hl].
  assert (Hd : starts_with (lit "Slide ") (drop_last2 m) = true).
  { unfold drop_last2. apply starts_with_firstn_keep; [exact Hs|simpl; lia]. }
  pose proof (starts_with_firstn _ _ Hd) as Hp.
  rewrite <- (firstn_skipn 6 (drop_last2 m)). simpl length in Hp. rewrite Hp.
  reflexivity.
Qed.

Lemma match_header_shape header n g2 :
  match_header header = Some (n, g2) ->
  nonempty n = true /\ Forall (fun c => is_digit c = true) n /\ ~ In newline g2.
Proof.
  unfold match_header. cbv zeta.
  destruct (starts_with (lit "Slide ") header); [|discriminate].
  destruct (digits_len (skipn 6 header)) as [|d] eqn:Hd; [discriminate|].
  destruct (skipn (S d) (skipn 6 header)) as [|c1 [|c2 t]];
    try (intro H; discriminate H).
  { destruct c1 as [[] [] [] [] [] [] [] []]; intro H; discriminate H. }
  destruct c1 as [[] [] [] [] [] [] [] []]; try (intro H; discriminate H).
  destruct c2 as [[] [] [] [] [] [] [] []]; try (intro H; discriminate H).
  destruct (take_line t) as [|x l] eqn:Ht; [intro H; discriminate H|].
  intro H. injection H as <- <-.
  destruct (digits_prefix (skipn 6 header)) as [Hdig Hlen]. rewrite Hd in Hdig, Hlen.
  change (nonempty (firstn (S d) (skipn 6 header)) = true /\
    Forall (fun c => is_digit c = true) (firstn (S d) (skipn 6 header)) /\
    ~ In newline (x :: l)).
  split; [destruct (firstn (S d) (skipn 6 header)); [discriminate Hlen|reflexivity]|].
  split; [exact Hdig|]. rewrite <- Ht. apply take_line_no_newline.
Qed.

Lemma process_slide_title_ok (sl no title body : str) :
  process_slide_title sl = Some (no, title, body) ->
  nonempty no = true /\ Forall (fun c => is_digit c = true) no /\
  ~ In newline title /\ ~ In newline body.
Proof.
  unfold process_slide_title.
  destruct (split_first newline sl) as [[part0 part1]|]; [|discriminate].
  destruct (match_header (strip part0)) as [[n g2]|] eqn:Hm; [|discriminate].
  intro H. injection H as <- <- <-.
  destruct (match_header_shape _ _ _ Hm) as [Hne [Hd Hg]].
  split; [exact Hne|]. split; [exact Hd|]. split.
  - intro Hc. apply Hg, in_strip, Hc.
  - apply join_no_char.
    + intros [H|[H|[]]]; discriminate H.
    + apply Forall_map. apply Forall_forall. intros p Hp Hc.
      apply filter_In in Hp as [Hp _].
      pose proof (split_on_no_sep newline (strip part1)) as Hs.
      rewrite Forall_forall in Hs. apply (Hs p Hp).
      apply in_strip_star_space, in_strip, Hc.
Qed.

(** X8: when [process_slide_title] accepts a fragment, the slide number it
    returns is a nonempty run of decimal digits, and neither the title nor
    the comma-joined points contain a newline. *)
Theorem process_slide_title_shape (sl no title body : str) :
  process_slide_title sl = Some (no, title, body) ->
  nonempty no = true /\ Forall (fun c => is_digit c = true) no /\
  ~ In newline title /\ ~ In newline body.
Proof. apply process_slide_title_ok. Qed.

Lemma process_slide_title_shape_witness :
  process_slide_title (lit "Slide 1: Intro
* one
* two") = Some (lit "1", lit "Intro", lit "one, two") /\
  (nonempty (lit "1") = true /\ Forall (fun c => is_digit c = true) (lit "1") /\
   ~ In newline (lit "Intro") /\ ~ In newline (lit "one, two")).
Proof.
  split; [reflexivity|].
  apply (process_slide_title_shape (lit "Slide 1: Intro
* one
* two")). reflexivity.
Defined.

Lemma split_runs_lstrip m c r :
  split_runs m c r -> lstrip c = c -> Forall (fun ch => lstrip ch = ch) r.
Proof.
  induction 1 as [c Hc|c chunk rest chunks Hlt Hs Hr IH]; intro Hl.
  - constructor; [exact Hl|constructor].
  - unfold split_step in Hs. injection Hs as <- <-. constructor.
    + apply (lstrip_prefix _ (skipn (match rfind_space c m with
                                      | Some i => i | None => m end) c)).
      rewrite firstn_skipn. exact Hl.
    + apply IH, lstrip_strip.
Qed.

(** X9: every chunk of [split_content] after the first starts with a
    non-whitespace character (or is empty): the loop strips the remainder
    before cutting the next chunk. *)
Theorem split_content_later_chunks_lstripped (content : str) (max_length : nat) :
  0 < max_length ->
  Forall (fun ch => lstrip ch = ch) (tl (split_content content max_length)).
Proof.
  intro Hm. pose proof (split_content_runs max_length content Hm) as H.
  destruct H as [c Hc|c chunk rest chunks Hlt Hs Hr]; [constructor|].
  simpl. apply (split_runs_lstrip max_length rest); [exact Hr|].
  unfold split_step in Hs. injection Hs as _ <-. apply lstrip_strip.
Qed.

Lemma split_content_later_chunks_lstripped_witness :
  0 < 5 /\
  Forall (fun ch => lstrip ch = ch) (tl (split_content (lit "ab cd    efgh ij") 5)).
Proof.
  split; [lia|]. apply split_content_later_chunks_lstripped. lia.
Defined.

(** X10: a text no longer than [max_length] comes back as the only chunk,
    unchanged; a longer text is always cut into at least two chunks. *)
Theorem split_content_short_long (content : str) (max_length : nat) :
  0 < max_length ->
  (length content <= max_length -> split_content content max_length = [content]) /\
  (max_length < length content -> 2 <= length (split_content content max_length)).
Proof.
  intro Hm. pose proof (split_content_runs max_length content Hm) as H.
  split; intro Hl.
  - destruct H as [c Hc|c chunk rest chunks Hlt Hs Hr]; [reflexivity|lia].
  - destruct H as [c Hc|c chunk rest chunks Hlt Hs Hr]; [lia|].
    destruct chunks as [|x xs]; [destruct (split_runs_nonempty _ _ _ Hr eq_refl)|].
    simpl. lia.
Qed.

Lemma split_content_short_long_witness :
  0 < 4 /\
  (length (lit "ab cd ef") <= 4 -> split_content (lit "ab cd ef") 4 = [lit "ab cd ef"]) /\
  (4 < length (lit "ab cd ef") -> 2 <= length (split_content (lit "ab cd ef") 4)).
Proof.
  split; [lia|]. apply split_content_short_long. lia.
Defined.

(** X11: the submit handler of App.py ends in an exception exactly when at
    least one topic was entered and [prs.save] cannot write the file
    [title.replace(' ', '_') + ".pptx"]; otherwise it reports that no
    topic was entered or offers the file. *)
Theorem submit_A_crash_iff (title topics_input : str) (w : world) :
  fst (submit_A title topics_input w) = Crash_A <->
  parse_topics topics_input <> [] /\ can_save w (replace_spaces title ++ lit ".pptx") = false.
Proof.
  unfold submit_A. destruct (parse_topics topics_input) as [|t ts].
  - split; [discriminate|]. intros [H _]. congruence.
  - rewrite create_presentation_A_eq.
    pose proof (generate_content_can_save (prompt_A title (t :: ts)) w) as Hc.
    destruct (generate_content (prompt_A title (t :: ts)) w) as [content w1].
    cbn [snd] in Hc. cbv zeta. rewrite Hc.
    destruct (can_save w (replace_spaces title ++ lit ".pptx")).
    + unfold save_file. cbn [files]. rewrite lookup_file_head.
      split; [discriminate|]. intros [_ H]. discriminate H.
    + split; [intros _; split; [discriminate|reflexivity]|reflexivity].
Qed.

Lemma submit_A_crash_iff_witness :
  fst (submit_A (lit "a/b") (lit "A") (mk_world None (fun _ _ => None) 0 [] (fun _ => false)))
    = Crash_A.
Proof.
  apply (proj2 (submit_A_crash_iff (lit "a/b") (lit "A")
                  (mk_world None (fun _ _ => None) 0 [] (fun _ => false)))).
  split; [discriminate|reflexivity].
Defined.

(** X12: with at least one topic and a file the save can write, the App.py
    handler offers the file [title.replace(' ', '_') + ".pptx"], the deck
    offered is the one just written under that name in front of the files
    already there, and that deck opens with the title slide. *)
Theorem submit_A_offers_saved_deck (title topics_input : str) (w : world) :
  parse_topics topics_input <> [] ->
  can_save w (replace_spaces title ++ lit ".pptx") = true ->
  exists d w1,
    submit_A title topics_input w = (Offer_A (replace_spaces title ++ lit ".pptx") d, w1) /\
    files w1 = (replace_spaces title ++ lit ".pptx", d) :: files w /\
    hd_error d = Some (title_slide title).
Proof.
  intros Hne Hs. unfold submit_A.
  destruct (parse_topics topics_input) as [|t ts]; [congruence|].
  rewrite create_presentation_A_eq.
  pose proof (generate_content_can_save (prompt_A title (t :: ts)) w) as Hc.
  destruct (generate_content (prompt_A title (t :: ts)) w) as [content w1] eqn:Hg.
  cbn [snd] in Hc. cbv zeta. rewrite Hc, Hs.
  unfold save_file. cbn [files]. rewrite lookup_file_head.
  eexists _, _. split; [reflexivity|]. split; [|reflexivity].
  rewrite (generate_content_files _ _ _ _ Hg). reflexivity.
Qed.

Lemma submit_A_offers_saved_deck_witness :
  parse_topics (lit "A") <> [] /\
  can_save no_key_world (replace_spaces (lit "Gen AI") ++ lit ".pptx") = true /\
  exists d w1,
    submit_A (lit "Gen AI") (lit "A") no_key_world =
      (Offer_A (replace_spaces (lit "Gen AI") ++ lit ".pptx") d, w1) /\
    files w1 = (replace_spaces (lit "Gen AI") ++ lit ".pptx", d) :: files no_key_world /\
    hd_error d = Some (title_slide (lit "Gen AI")).
Proof.
  split; [discriminate|]. split; [reflexivity|].
  apply submit_A_offers_saved_deck; [discriminate|reflexivity].
Defined.

(** X13: the App1.py handler never writes a file, keeps the key, and
    consults the model at most once. *)
Theorem submit_B_no_file_one_call (title topics_input : str) (w : world) :
  let w1 := snd (submit_B title topics_input w) in
  files w1 = files w /\ api_key w1 = api_key w /\ calls w1 <= S (calls w).
Proof.
  cbv zeta. unfold submit_B.
  destruct (parse_topics topics_input) as [|t ts]; [simpl; auto|].
  unfold create_presentation_B.
  destruct (generate_content (prompt_B title (t :: ts)) w) as [content w1] eqn:Hg.
  assert (H : files w1 = files w /\ api_key w1 = api_key w /\ calls w1 <= S (calls w)).
  { revert Hg. unfold generate_content.
    destruct (key_missing (api_key w)); [intro H; injection H as _ <-; auto|].
    destruct (gemini w (calls w) (prompt_B title (t :: ts)));
      intro H; injection H as _ <-; simpl; auto. }
  destruct (starts_with (lit "Error") content) eqn:E; cbv iota beta;
    [rewrite E|]; exact H.
Qed.

(** X14: the App1.py handler offers a deck only for an answer of the model
    that does not start with "Error": the slide texts are that answer's
    fragments with [**] removed, every one of them decomposed by
    [process_slide_title], and the file is named
    [title.replace(' ', '_') + "_presentation.pptx"], which holds no space. *)
Theorem submit_B_offer_from_answer (title topics_input : str) (w : world)
    (slides : list str) (d : deck) (file_name : str) (w1 : world) :
  submit_B title topics_input w = (Offer_B slides d file_name, w1) ->
  exists text,
    generate_content (prompt_B title (parse_topics topics_input)) w = (text, w1) /\
    starts_with (lit "Error") text = false /\
    slides = remove_double_asteris (split_into_slides text) /\
    generate_ppt slides = Some d /\
    file_name = replace_spaces title ++ lit "_presentation.pptx" /\
    ~ In space file_name.
Proof.
  unfold submit_B. destruct (parse_topics topics_input) as [|t ts]; [discriminate|].
  unfold create_presentation_B.
  destruct (generate_content (prompt_B title (t :: ts)) w) as [content w2] eqn:Hg.
  destruct (starts_with (lit "Error") content) eqn:E; cbv iota beta;
    [rewrite E; discriminate|].
  unfold offer_B.
  destruct (generate_ppt (remove_double_asteris (split_into_slides content))) as [d'|] eqn:Hp;
    [|discriminate].
  intro H. injection H as <- <- <- <-.
  exists content. repeat split; try assumption; try reflexivity.
  intro Hs. apply in_app_or in Hs as [Hs|Hs];
    [exact (replace_spaces_no_space _ Hs)|].
  repeat (destruct Hs as [Hs|Hs]; [discriminate Hs|]). destruct Hs.
Qed.

Lemma submit_B_offer_from_answer_witness :
  submit_B (lit "Gen AI") (lit "A") (answer_world (lit "Slide 1: Intro
* one
* two


")) =
    (Offer_B [lit "Slide 1: Intro
* one
* two"] [mk_slide 1 (lit "1.Intro") (lit "one, two") None]
       (lit "Gen_AI_presentation.pptx"),
     incr_calls (answer_world (lit "Slide 1: Intro
* one
* two


"))) /\
  exists text,
    generate_content (prompt_B (lit "Gen AI") (parse_topics (lit "A")))
      (answer_world (lit "Slide 1: Intro
* one
* two


")) = (text, incr_calls (answer_world (lit "Slide 1: Intro
* one
* two


"))) /\
    starts_with (lit "Error") text = false /\
    [lit "Slide 1: Intro
* one
* two"] = remove_double_asteris (split_into_slides text) /\
    generate_ppt [lit "Slide 1: Intro
* one
* two"] = Some [mk_slide 1 (lit "1.Intro") (lit "one, two") None] /\
    lit "Gen_AI_presentation.pptx" = replace_spaces (lit "Gen AI") ++ lit "_presentation.pptx" /\
    ~ In space (lit "Gen_AI_presentation.pptx").
Proof.
  assert (H : submit_B (lit "Gen AI") (lit "A") (answer_world (lit "Slide 1: Intro
* one
* two


")) =
    (Offer_B [lit "Slide 1: Intro
* one
* two"] [mk_slide 1 (lit "1.Intro") (lit "one, two") None]
       (lit "Gen_AI_presentation.pptx"),
     incr_calls (answer_world (lit "Slide 1: Intro
* one
* two


")))) by (vm_compute; reflexivity).
  split; [exact H|]. exact (submit_B_offer_from_answer _ _ _ _ _ _ _ H).
Defined.

Lemma split_on_app_sep c a b :
  ~ In c a -> split_on c (a ++ c :: b) = a :: split_on c b.
Proof.
  induction a as [|x a IH]; intro Ha; simpl.
  - destruct (ascii_dec c c); congruence.
  - destruct (ascii_dec x c) as [E|_]; [destruct Ha; left; congruence|].
    rewrite IH; [reflexivity|]. intro H. apply Ha. right. exact H.
Qed.

Lemma split_on_single c a : ~ In c a -> split_on c a = [a].
Proof.
  induction a as [|x a IH]; intro Ha; simpl; [reflexivity|].
  destruct (ascii_dec x c) as [E|_]; [destruct Ha; left; congruence|].
  rewrite IH; [reflexivity|]. intro H. apply Ha. right. exact H.
Qed.

Lemma split_on_join c l :
  l <> [] -> Forall (fun p => ~ In c p) l -> split_on c (join [c] l) = l.
Proof.
  intros Hne Hl. induction Hl as [|x l Hx Hl IH]; [congruence|].
  destruct l as [|y l]; [apply split_on_single, Hx|].
  change (join [c] (x :: y :: l)) with (x ++ c :: join [c] (y :: l)).
  rewrite split_on_app_sep by exact Hx. rewrite IH by discriminate. reflexivity.
Qed.

(** X15: parsing the topics is a round trip with writing them one per line:
    the parsed topics, joined with newlines, parse back to themselves. *)
Theorem parse_topics_join_roundtrip (topics_input : str) :
  parse_topics (join [newline] (parse_topics topics_input)) = parse_topics topics_input.
Proof.
  pose proof (parse_topics_shape topics_input) as Hc.
  destruct (parse_topics topics_input) as [|t ts] eqn:Ep; [reflexivity|].
  rewrite <- Ep at 2. unfold parse_topics at 1.
  rewrite split_on_join.
  - rewrite <- Ep in Hc |- *. clear Ep. induction Hc as [|x l [Hn [Hs _]] _ IH]; [reflexivity|].
    simpl. rewrite Hs, Hn. simpl. rewrite Hs. f_equal. exact IH.
  - discriminate.
  - rewrite Forall_forall in Hc |- *. intros x Hx. apply (Hc x Hx).
Qed.

Lemma remove_dstar_keeps_aux n :
  forall s, length s <= n ->
  filter (fun c => negb (is_star c)) (remove_dstar s) =
  filter (fun c => negb (is_star c)) s.
Proof.
  induction n as [|n IH]; intros s Hs.
  - destruct s; [reflexivity|simpl in Hs; lia].
  - destruct s as [|c t]; [reflexivity|]. simpl in Hs.
    destruct (is_star c) eqn:Ec.
    + destruct t as [|d t'].
      * cbn [remove_dstar]. rewrite Ec. reflexivity.
      * destruct (is_star d) eqn:Ed.
        -- cbn [remove_dstar]. rewrite Ec, Ed. cbn [filter]. rewrite Ec, Ed.
           cbn [negb]. apply IH. simpl in Hs. lia.
        -- assert (E : remove_dstar (c :: d :: t') = c :: remove_dstar (d :: t'))
             by (simpl; rewrite Ec, Ed; reflexivity).
           rewrite E. remember (remove_dstar (d :: t')) as r eqn:Er.
           remember (d :: t') as u eqn:Eu.
           cbn [filter]. rewrite Ec. cbn [negb]. subst r.
           apply IH. subst u. simpl in Hs |- *. lia.
    + cbn [remove_dstar]. rewrite Ec. cbn [filter]. rewrite Ec. cbn [negb].
      f_equal. apply IH. lia.
Qed.

(** X16: dropping the [**] pairs removes asterisks and nothing else: every
    other character of every slide text is kept, in order. *)
Theorem remove_double_asteris_keeps_text (input_list : list str) :
  map (filter (fun c => negb (is_star c))) (remove_double_asteris input_list) =
  map (filter (fun c => negb (is_star c))) input_list.
Proof.
  unfold remove_double_asteris. rewrite map_map. apply map_ext.
  intro s. exact (remove_dstar_keeps_aux (length s) s (le_n _)).
Qed.

(** X17: every slide of an App1.py deck is a Title and Content slide whose
    title is a nonempty run of decimal digits, a dot and a one-line title,
    and whose body holds no newline. *)
Theorem generate_ppt_titles_numbered (slides : list str) (d : deck) :
  generate_ppt slides = Some d ->
  Forall (fun s => layout s = 1 /\ body_level s = None /\ ~ In newline (body_text s) /\
            exists no title, title_text s = no ++ lit "." ++ title /\
              nonempty no = true /\ Forall (fun c => is_digit c = true) no /\
              ~ In newline title) d.
Proof.
  revert d. induction slides as [|sl rest IH]; intros d H; cbn [generate_ppt] in H.
  - injection H as <-. constructor.
  - destruct (process_slide_title sl) as [[[no t] c]|] eqn:Ep; [|discriminate].
    destruct (generate_ppt rest) as [d'|]; [|discriminate].
    injection H as <-.
    destruct (process_slide_title_ok _ _ _ _ Ep) as [Hn [Hd [Ht Hc]]].
    constructor; [|apply IH; reflexivity].
    split; [reflexivity|]. split; [reflexivity|]. split; [exact Hc|].
    exists no, t. repeat split; assumption.
Qed.

Lemma generate_ppt_titles_numbered_witness :
  generate_ppt [lit "Slide 12: Intro
* one"] = Some [mk_slide 1 (lit "12.Intro") (lit "one") None] /\
  Forall (fun s => layout s = 1 /\ body_level s = None /\ ~ In newline (body_text s) /\
            exists no title, title_text s = no ++ lit "." ++ title /\
              nonempty no = true /\ Forall (fun c => is_digit c = true) no /\
              ~ In newline title)
    [mk_slide 1 (lit "12.Intro") (lit "one") None].
Proof.
  assert (H : generate_ppt [lit "Slide 12: Intro
* one"] = Some [mk_slide 1 (lit "12.Intro") (lit "one") None]) by (vm_compute; reflexivity).
  split; [exact H|]. exact (generate_ppt_titles_numbered _ _ H).
Defined.
